(** * Schedule extraction and calendar export of [main.py]

    A shallow embedding of the two pieces of logic of the application:
    [parse_content] (text extraction dispatch, the time-range regular
    expression, the per-line loop building candidate events) and the body
    of the [/export] route (building the calendar, serialising it and
    removing the letter Z), and of the routes around them: [upload],
    [home], [login], [register] and [logout].

    Python strings are sequences of Unicode code points; they are modelled
    as lists of code points in [N].  The third-party libraries the program
    calls (pdfplumber, BeautifulSoup, ics, datetime, passlib, the
    database) are parameters of the definitions that use them. *)

From Stdlib Require Import List NArith ZArith Bool Lia String Ascii Arith.
From Stdlib Require Import Sorting.Sorted DecimalString DecimalPos DecimalZ.
Import ListNotations.

Local Open Scope N_scope.
Local Open Scope list_scope.

(** ** Python strings *)

Module PyStr.

Definition char := N.
Definition pystr := list char.

(** Literals: an ASCII string literal read as the code points of its bytes. *)
Definition str (s : string) : pystr :=
  map N_of_ascii (list_ascii_of_string s).

Definition NL : char := 10.        (* '\n' *)
Definition COLON : char := 58.     (* ':' *)
Definition PERIOD : char := 46.    (* '.' *)
Definition HYPHEN : char := 45.    (* '-' *)
Definition EN_DASH : char := 8211. (* U+2013 *)
Definition LETTER_Z : char := 90.  (* 'Z' *)
Definition LETTER_T : char := 84.  (* 'T' *)

Definition in_ranges (c : char) (t : list (N * N)) : bool :=
  existsb (fun r => (fst r <=? c) && (c <=? snd r)) t.

(** The whitespace table of CPython ([str.isspace], [str.strip] without
    argument and [\s] in a [str] pattern all use it). *)
Definition whitespace_table : list (N * N) :=
  [ (9, 13); (28, 32); (133, 133); (160, 160); (5760, 5760);
    (8192, 8202); (8232, 8233); (8239, 8239); (8287, 8287);
    (12288, 12288) ].

Definition isspace (c : char) : bool := in_ranges c whitespace_table.

(** The decimal digits (general category Nd, Unicode 15.0): what [\d]
    matches in a [str] pattern.  Every entry is a run of code points. *)
Definition decimal_table : list (N * N) :=
  [ (48, 57); (1632, 1641); (1776, 1785); (1984, 1993); (2406, 2415);
    (2534, 2543); (2662, 2671); (2790, 2799); (2918, 2927); (3046, 3055);
    (3174, 3183); (3302, 3311); (3430, 3439); (3558, 3567); (3664, 3673);
    (3792, 3801); (3872, 3881); (4160, 4169); (4240, 4249); (6112, 6121);
    (6160, 6169); (6470, 6479); (6608, 6617); (6784, 6793); (6800, 6809);
    (6992, 7001); (7088, 7097); (7232, 7241); (7248, 7257);
    (42528, 42537); (43216, 43225); (43264, 43273); (43472, 43481);
    (43504, 43513); (43600, 43609); (44016, 44025); (65296, 65305);
    (66720, 66729); (68912, 68921); (69734, 69743); (69872, 69881);
    (69942, 69951); (70096, 70105); (70384, 70393); (70736, 70745);
    (70864, 70873); (71248, 71257); (71360, 71369); (71472, 71481);
    (71904, 71913); (72016, 72025); (72784, 72793); (73040, 73049);
    (73120, 73129); (73552, 73561); (92768, 92777); (92864, 92873);
    (93008, 93017); (120782, 120831); (123200, 123209);
    (123632, 123641); (124144, 124153); (125264, 125273);
    (130032, 130041) ].

Definition isdecimal (c : char) : bool := in_ranges c decimal_table.

(** [s.startswith(p)] and [s.endswith(p)]. *)
Fixpoint startswith (s p : pystr) : bool :=
  match p, s with
  | [], _ => true
  | _ :: _, [] => false
  | y :: p', x :: s' => (x =? y) && startswith s' p'
  end.

Definition endswith (s p : pystr) : bool := startswith (rev s) (rev p).

(** [s.split(sep)] for a separator of one character: the pieces between
    the separators, so one more piece than there are separators. *)
Fixpoint split (sep : char) (s : pystr) : list pystr :=
  match s with
  | [] => [[]]
  | c :: s' =>
      if c =? sep then [] :: split sep s'
      else match split sep s' with
           | l :: ls => (c :: l) :: ls
           | [] => [[c]]
           end
  end.

(** [sep.join(parts)]. *)
Fixpoint join (sep : pystr) (parts : list pystr) : pystr :=
  match parts with
  | [] => []
  | [p] => p
  | p :: ps => p ++ sep ++ join sep ps
  end.

Fixpoint dropwhile (p : char -> bool) (s : pystr) : pystr :=
  match s with
  | [] => []
  | c :: s' => if p c then dropwhile p s' else s
  end.

Fixpoint takewhile (p : char -> bool) (s : pystr) : pystr :=
  match s with
  | [] => []
  | c :: s' => if p c then c :: takewhile p s' else []
  end.

(** [s.strip()]: whitespace removed at both ends. *)
Definition lstrip (s : pystr) : pystr := dropwhile isspace s.
Definition rstrip (s : pystr) : pystr := rev (dropwhile isspace (rev s)).
Definition strip (s : pystr) : pystr := rstrip (lstrip s).

(** [s.replace(old, new)] for a non-empty [old]: occurrences are taken
    from left to right and do not overlap.  [skip] counts the characters
    of the occurrence just replaced that are still to be passed. *)
Fixpoint replace_from (old new s : pystr) (skip : nat) : pystr :=
  match s with
  | [] => []
  | c :: s' =>
      match skip with
      | S n => replace_from old new s' n
      | O => if startswith s old
             then new ++ replace_from old new s' (pred (List.length old))
             else c :: replace_from old new s' O
      end
  end.

Definition replace (s old new : pystr) : pystr := replace_from old new s O.

(** [s[:n]] for a non-negative [n]. *)
Definition slice_to (n : nat) (s : pystr) : pystr := firstn n s.

(** [a in s] for strings: [a] occurs in [s] as a contiguous run. *)
Definition occurs_in (a s : pystr) : Prop :=
  exists pre post, s = pre ++ a ++ post.

End PyStr.
Import PyStr.

(** ** A backtracking matcher for the fragment of [re] the program uses

    The pattern of [parse_content] is built from character classes,
    greedy repetitions of a character class, concatenation and capturing
    groups.  The matcher tries alternatives in the order of Python's
    engine: a greedy repetition first takes as many characters as it can
    and gives them back one at a time when the rest of the pattern fails. *)

Module Re.

Inductive cclass : Type :=
| Digit                      (* \d *)
| Space                      (* \s *)
| AnyChar                    (* .  : anything but a newline *)
| OneOf (cs : list char).    (* [...] *)

Inductive regex : Type :=
| Chr (c : cclass)
| Rep (c : cclass) (lo : nat) (hi : option nat)  (* c{lo,hi}; [None] is unbounded *)
| Cat (r1 r2 : regex)
| Grp (r : regex).

Definition class_match (c : cclass) (x : char) : bool :=
  match c with
  | Digit => isdecimal x
  | Space => isspace x
  | AnyChar => negb (x =? NL)
  | OneOf cs => existsb (N.eqb x) cs
  end.

Definition may_repeat (hi : option nat) : bool :=
  match hi with
  | Some O => false
  | _ => true
  end.

Definition one_less (hi : option nat) : option nat :=
  match hi with
  | Some n => Some (pred n)
  | None => None
  end.

(** A continuation receives the rest of the subject and the groups closed
    so far, and answers with the groups of the whole match, if any. *)
Definition cont := pystr -> list pystr -> option (list pystr).

Fixpoint rep_greedy (c : cclass) (lo : nat) (hi : option nat)
         (s : pystr) (caps : list pystr) (k : cont) : option (list pystr) :=
  let more :=
    match s with
    | x :: s' =>
        if class_match c x && may_repeat hi
        then rep_greedy c (pred lo) (one_less hi) s' caps k
        else None
    | [] => None
    end in
  match more with
  | Some g => Some g
  | None => match lo with
            | O => k s caps
            | S _ => None
            end
  end.

(** The groups of the pattern are not nested, so the order in which they
    close is the order of their numbers. *)
Fixpoint run (r : regex) (s : pystr) (caps : list pystr) (k : cont)
  : option (list pystr) :=
  match r with
  | Chr c =>
      match s with
      | x :: s' => if class_match c x then k s' caps else None
      | [] => None
      end
  | Rep c lo hi => rep_greedy c lo hi s caps k
  | Cat r1 r2 => run r1 s caps (fun s1 c1 => run r2 s1 c1 k)
  | Grp r1 =>
      run r1 s caps
          (fun s1 c1 => k s1 (c1 ++ [firstn (List.length s - List.length s1) s]))
  end.

(** [re.match]: the pattern anchored at the start of [s]; the answer is
    [m.groups()]. *)
Definition re_match (r : regex) (s : pystr) : option (list pystr) :=
  run r s [] (fun _ caps => Some caps).

(** [re.search]: the first position, from the left, at which the pattern
    matches; the answer is [(m.start(), m.groups())]. *)
Fixpoint search_from (r : regex) (pos : nat) (s : pystr)
  : option (nat * list pystr) :=
  match re_match r s with
  | Some g => Some (pos, g)
  | None => match s with
            | [] => None
            | _ :: s' => search_from r (S pos) s'
            end
  end.

Definition re_search (r : regex) (s : pystr) : option (nat * list pystr) :=
  search_from r O s.

End Re.
Import Re.

(** ** [parse_content] *)

(** [\d{1,2}[:.]\d{2}] *)
Definition time_re : regex :=
  Cat (Rep Digit 1 (Some 2%nat))
      (Cat (Chr (OneOf [COLON; PERIOD])) (Rep Digit 2 (Some 2%nat))).

(** [\s*], a hyphen or an en dash (U+2013), [\s*] *)
Definition dash_re : regex :=
  Cat (Rep Space 0 None) (Cat (Chr (OneOf [HYPHEN; EN_DASH])) (Rep Space 0 None)).

(** The [pattern] of line 64: group 1 is a time, then the dash with
    optional whitespace around it, group 2 is a time, then [\s*], and
    group 3 is a greedy run of [.] *)
Definition pattern : regex :=
  Cat (Grp time_re)
      (Cat dash_re
           (Cat (Grp time_re)
                (Cat (Rep Space 0 None) (Grp (Rep AnyChar 0 None))))).

(** Exceptions a call can end with. *)
Inductive exn : Type :=
| ValueError
| IndexError
| LibraryError (what : pystr).

Inductive result (A : Type) : Type :=
| Ok (a : A)
| Raise (e : exn).
Arguments Ok {A} a.
Arguments Raise {A} e.

Definition bind {A B : Type} (r : result A) (f : A -> result B) : result B :=
  match r with
  | Ok a => f a
  | Raise e => Raise e
  end.

Notation "x <- r ;; k" := (bind r (fun x => k))
  (at level 61, r at next level, right associativity).

(** The dictionary appended for a matching line. *)
Record event : Type := mk_event {
  title : pystr;
  time : pystr;
  s_iso : pystr;
  e_iso : pystr
}.

(** The dictionary literal of lines 69-74, from the three groups. *)
Definition candidate (date_str s e t : pystr) : event :=
  {| title := strip t;
     time := s ++ [HYPHEN] ++ e;
     s_iso := date_str ++ [LETTER_T] ++ replace s [PERIOD] [COLON] ++ str ":00";
     e_iso := date_str ++ [LETTER_T] ++ replace e [PERIOD] [COLON] ++ str ":00" |}.

(** One turn of the loop of lines 65-74: [events] is the list the loop
    appends to.  [s, e, t = m.groups()] raises when there are not three
    groups. *)
Definition loop_body (date_str : pystr) (events : list event) (line : pystr)
  : result (list event) :=
  match re_search pattern line with
  | Some (_, g) =>
      match g with
      | [s; e; t] => Ok (events ++ [candidate date_str s e t])
      | _ => Raise ValueError
      end
  | None => Ok events
  end.

Fixpoint for_lines (date_str : pystr) (lines : list pystr) (events : list event)
  : result (list event) :=
  match lines with
  | [] => Ok events
  | line :: rest =>
      events' <- loop_body date_str events line ;;
      for_lines date_str rest events'
  end.

(** Lines 63-75, for the text the first half of the function computed. *)
Definition scan_text (text date_str : pystr) : result (list event) :=
  for_lines date_str (split NL text) [].

(** What the program gets from pdfplumber and BeautifulSoup.
    [pdf_page_texts f] stands for [[p.extract_text() for p in pdf.pages]]
    of the document opened from [f] ([None] where a page has no text);
    [soup_get_text f] stands for
    [BeautifulSoup(f.read(), 'html.parser').get_text(separator='\n')].
    Either may raise. *)
Definition bytes := list Byte.byte.

Record extractors : Type := {
  pdf_page_texts : bytes -> result (list (option pystr));
  soup_get_text : bytes -> result pystr
}.

(** [[t for t in texts if t]]: [None] and the empty string are dropped. *)
Fixpoint truthy_texts (texts : list (option pystr)) : list pystr :=
  match texts with
  | [] => []
  | Some (c :: t) :: rest => (c :: t) :: truthy_texts rest
  | _ :: rest => truthy_texts rest
  end.

(** Lines 55-61. *)
Definition extract_text (L : extractors) (file_bytes : bytes) (filename : pystr)
  : result pystr :=
  if endswith filename (str ".pdf") then
    pages <- pdf_page_texts L file_bytes ;;
    Ok (join [NL] (truthy_texts pages))
  else if endswith filename (str ".html") then
    soup_get_text L file_bytes
  else Ok [].

Definition parse_content (L : extractors) (file_bytes : bytes)
           (filename date_str : pystr) : result (list event) :=
  text <- extract_text L file_bytes filename ;;
  scan_text text date_str.

(** ** The [/export] route *)

(** [l[i]] for a Python [int] index: negative indices count from the end. *)
Definition getitem {A : Type} (l : list A) (i : Z) : result A :=
  let n := Z.of_nat (List.length l) in
  let j := if (i <? 0)%Z then (i + n)%Z else i in
  if (j <? 0)%Z then Raise IndexError
  else match nth_error l (Z.to_nat j) with
       | Some a => Ok a
       | None => Raise IndexError
       end.

(** What the program gets from [datetime] and [ics].  A calendar is
    represented by the events added to it, in the order of the [add]
    calls (every [Event()] is a new object with an identifier of its own,
    so no [add] is absorbed by the set); [serialize] is the text the
    library renders for such a calendar.  [end_precedes end_dt begin_dt]
    says that the end is before the begin, in which case the assignment
    [e.end = end_dt] to an event that begins at [begin_dt] raises
    ValueError. *)
Record ics_event (dt : Type) : Type := mk_ics_event {
  name : pystr;
  begin : dt;
  end_ : dt
}.
Arguments mk_ics_event {dt} name begin end_.
Arguments name {dt} i.
Arguments begin {dt} i.
Arguments end_ {dt} i.

Record calendar_lib : Type := {
  datetime : Type;
  fromisoformat : pystr -> option datetime;   (* [None]: ValueError *)
  end_precedes : datetime -> datetime -> bool;
  serialize : list (ics_event datetime) -> pystr
}.

(** An entry of [saved_events]. *)
Record saved_event : Type := mk_saved {
  saved_title : pystr;
  saved_time : pystr
}.

(** A row of the [history] table (the timestamp column is filled by the
    database and left out). *)
Record operation : Type := mk_operation {
  custom_name : pystr;
  event_list : list saved_event;
  user_id : Z
}.

(** What the route changes: the history table and the files written. *)
Record world : Type := mk_world {
  history : list operation;
  files : list (pystr * pystr)
}.

Inductive response : Type :=
| RedirectResponse (url : pystr)
| FileResponse (path filename : pystr).

Definition parse_iso (C : calendar_lib) (s : pystr) : result (datetime C) :=
  match fromisoformat C s with
  | Some d => Ok d
  | None => Raise ValueError
  end.

(** [e.end = end_dt] of line 144, for an event whose begin is set. *)
Definition set_end (C : calendar_lib) (begin_dt end_dt : datetime C)
  : result unit :=
  if end_precedes C end_dt begin_dt then Raise ValueError else Ok tt.

(** One turn of the loop of lines 138-146. *)
Definition export_body (C : calendar_lib) (titles starts ends : list pystr)
           (st : list (ics_event (datetime C)) * list saved_event) (i : Z)
  : result (list (ics_event (datetime C)) * list saved_event) :=
  start_s <- getitem starts i ;;
  start_dt <- parse_iso C start_s ;;
  end_s <- getitem ends i ;;
  end_dt <- parse_iso C end_s ;;
  e_name <- getitem titles i ;;
  _ <- set_end C start_dt end_dt ;;
  t <- getitem titles i ;;
  start_s' <- getitem starts i ;;
  clock <- getitem (split LETTER_T start_s') 1%Z ;;
  Ok (fst st ++ [mk_ics_event e_name start_dt end_dt],
      snd st ++ [mk_saved t (slice_to 5 clock)]).

Fixpoint export_loop (C : calendar_lib) (titles starts ends : list pystr)
         (selected : list Z)
         (st : list (ics_event (datetime C)) * list saved_event)
  : result (list (ics_event (datetime C)) * list saved_event) :=
  match selected with
  | [] => Ok st
  | i :: rest =>
      st' <- export_body C titles starts ends st i ;;
      export_loop C titles starts ends rest st'
  end.

(** Lines 154-155: [cal.serialize().replace("Z", "")]. *)
Definition ics_fixed (C : calendar_lib) (cal : list (ics_event (datetime C)))
  : pystr :=
  replace (serialize C cal) [LETTER_Z] [].

(** Lines 136-155 without the database: the text written to the file. *)
Definition export_ics (C : calendar_lib) (titles starts ends : list pystr)
           (selected : list Z) : result pystr :=
  st <- export_loop C titles starts ends selected ([], []) ;;
  Ok (ics_fixed C (fst st)).

Definition str_of_int (z : Z) : pystr :=
  str (DecimalString.NilZero.string_of_int (Z.to_int z)).

(** The message of the redirect of line 134, after [/?error=]. *)
Definition login_required : pystr :=
  [1042; 1086; 1081; 1076; 1080; 1090; 1077; 32; 1074; 32;
   1089; 1080; 1089; 1090; 1077; 1084; 1091].

Definition truthy_id (session_user : option Z) : option Z :=
  match session_user with
  | Some 0%Z => None
  | other => other
  end.

(** The route, for the values the framework passes as its parameters:
    [session_user] is [request.session.get("user_id")]. *)
Definition export (C : calendar_lib) (session_user : option Z)
           (titles starts ends : list pystr) (selected : list Z)
           (schedule_name : pystr) (w : world) : result (response * world) :=
  match truthy_id session_user with
  | None => Ok (RedirectResponse (str "/?error=" ++ login_required), w)
  | Some uid =>
      st <- export_loop C titles starts ends selected ([], []) ;;
      let new_op := mk_operation schedule_name (snd st) uid in
      let fname := str "export_" ++ str_of_int uid ++ str ".ics" in
      let ics_data := serialize C (fst st) in
      let fixed := replace ics_data [LETTER_Z] [] in
      Ok (FileResponse fname (schedule_name ++ str ".ics"),
          {| history := history w ++ [new_op];
             files := (fname, fixed) :: files w |})
  end.

(** ** Vocabulary of the statements *)

Definition is_digit (c : char) : Prop := isdecimal c = true.
Definition is_space (c : char) : Prop := isspace c = true.
Definition colon_or_period (c : char) : bool := existsb (N.eqb c) [COLON; PERIOD].
Definition hyphen_or_dash (c : char) : bool := existsb (N.eqb c) [HYPHEN; EN_DASH].

(** A time token: one or two digits, a colon or a period, two digits. *)
Definition time_token (tok : pystr) : Prop :=
  exists h c m,
    tok = h ++ c :: m /\
    (List.length h = 1 \/ List.length h = 2)%nat /\
    Forall is_digit h /\
    colon_or_period c = true /\
    List.length m = 2%nat /\
    Forall is_digit m.

(** A time range with start token [s] and end token [e]: the two tokens
    joined by a hyphen or an en dash, with optional whitespace around it. *)
Definition time_range (u s e : pystr) : Prop :=
  exists ws1 d ws2,
    u = s ++ ws1 ++ d :: ws2 ++ e /\
    time_token s /\ time_token e /\
    Forall is_space ws1 /\ hyphen_or_dash d = true /\ Forall is_space ws2.

(** [line] has a time range starting at offset [pos], followed by [rest]. *)
Definition range_at (line : pystr) (pos : nat) (s e rest : pystr) : Prop :=
  exists pre u,
    line = pre ++ u ++ rest /\ List.length pre = pos /\ time_range u s e.

Definition has_time_range (line : pystr) : Prop :=
  exists pos s e rest, range_at line pos s e rest.

Definition no_newline (s : pystr) : Prop := ~ In NL s.

(** The event the loop appends for [line], if it appends one. *)
Definition event_of_line (date_str line : pystr) : option event :=
  match re_search pattern line with
  | Some (_, [s; e; t]) => Some (candidate date_str s e t)
  | _ => None
  end.

Definition matches (line : pystr) : Prop := re_search pattern line <> None.

(** The clock value of an ASCII time token, in minutes after midnight. *)
Fixpoint decimal_value (acc : N) (s : pystr) : N :=
  match s with
  | [] => acc
  | c :: s' => decimal_value (10 * acc + (c - 48)) s'
  end.

Definition not_sep (c : char) : bool := negb (colon_or_period c).

Definition clock_minutes (tok : pystr) : N :=
  60 * decimal_value 0 (takewhile not_sep tok)
  + decimal_value 0 (tl (dropwhile not_sep tok)).

(** A clock value that exists: an hour below 24 and a minute below 60. *)
Definition clock_in_range (tok : pystr) : bool :=
  (decimal_value 0 (takewhile not_sep tok) <? 24)
  && (decimal_value 0 (tl (dropwhile not_sep tok)) <? 60).

(** Lexicographic order on strings, the order of [<] on Python strings. *)
Fixpoint str_ltb (a b : pystr) : bool :=
  match a, b with
  | _, [] => false
  | [], _ :: _ => true
  | x :: a', y :: b' => (x <? y) || ((x =? y) && str_ltb a' b')
  end.

(** ** The pattern read deterministically

    The functions below read a time, the dash and the remainder from left
    to right without ever going back.  [re_match pattern] is proved equal
    to [scan_groups]: for this pattern, no alternative that the matcher
    leaves for later can succeed. *)

Definition scan_time (s : pystr) : option (pystr * pystr) :=
  match s with
  | a :: b :: rest1 =>
      if isdecimal a && isdecimal b then
        match rest1 with
        | c :: d :: e :: rest =>
            if colon_or_period c && isdecimal d && isdecimal e
            then Some ([a; b; c; d; e], rest) else None
        | _ => None
        end
      else if isdecimal a && colon_or_period b then
        match rest1 with
        | c :: d :: rest =>
            if isdecimal c && isdecimal d
            then Some ([a; b; c; d], rest) else None
        | _ => None
        end
      else None
  | _ => None
  end.

Definition scan_dash (s : pystr) : option pystr :=
  match dropwhile isspace s with
  | d :: s' => if hyphen_or_dash d then Some (dropwhile isspace s') else None
  | [] => None
  end.

Definition not_newline (c : char) : bool := negb (c =? NL).

Definition scan_range (s : pystr) : option (pystr * pystr * pystr) :=
  match scan_time s with
  | Some (t1, s1) =>
      match scan_dash s1 with
      | Some s2 =>
          match scan_time s2 with
          | Some (t2, s3) => Some (t1, t2, s3)
          | None => None
          end
      | None => None
      end
  | None => None
  end.

Definition scan_groups (s : pystr) : option (list pystr) :=
  match scan_range s with
  | Some (t1, t2, s3) =>
      Some [t1; t2; takewhile not_newline (dropwhile isspace s3)]
  | None => None
  end.

(** ** Stand-ins for the libraries, for closed examples *)

Definition latin1 (b : bytes) : pystr := map (fun x => Byte.to_N x) b.

(** Extractors that read the bytes as Latin-1 text: one page for a PDF. *)
Definition latin1_extractors : extractors :=
  {| pdf_page_texts := fun b => Ok [Some (latin1 b)];
     soup_get_text := fun b => Ok (latin1 b) |}.

Definition ascii_bytes (s : string) : bytes :=
  map byte_of_ascii (list_ascii_of_string s).

(** Two tables of code-point runs with no code point in common. *)
Definition ranges_disjoint (t1 t2 : list (N * N)) : bool :=
  forallb (fun r1 =>
    forallb (fun r2 => (snd r1 <? fst r2) || (snd r2 <? fst r1)) t2) t1.

(** A time token with its period, if it has one, rewritten to a colon. *)
Definition colon_time (tok : pystr) : pystr :=
  map (fun c => if c =? PERIOD then COLON else c) tok.

(** The events one line contributes: one or none. *)
Definition line_events (date_str line : pystr) : list event :=
  match event_of_line date_str line with
  | Some ev => [ev]
  | None => []
  end.

Definition matchesb (line : pystr) : bool :=
  match re_search pattern line with
  | Some _ => true
  | None => false
  end.

(** The positions, counted from [base], of the lines that match. *)
Fixpoint matching_indices (base : nat) (lines : list pystr) : list nat :=
  match lines with
  | [] => []
  | l :: ls =>
      if matchesb l then base :: matching_indices (S base) ls
      else matching_indices (S base) ls
  end.

(** A small schedule for closed examples: a line, a note, an earlier
    line, and the first line once more. *)
Definition demo_file : bytes :=
  ascii_bytes "10:00-11:00 Biology" ++ Byte.x0a ::
  ascii_bytes "bring a notebook" ++ Byte.x0a ::
  ascii_bytes "09:00-09:30 Assembly" ++ Byte.x0a ::
  ascii_bytes "10:00-11:00 Biology".

Definition demo_text : pystr :=
  str "10:00-11:00 Biology" ++ NL ::
  str "bring a notebook" ++ NL ::
  str "09:00-09:30 Assembly" ++ NL ::
  str "10:00-11:00 Biology".

(** A stand-in for [datetime] and [ics], for closed examples: a
    timestamp is kept as its digits with the [T], and a calendar is
    rendered in the layout of an iCalendar file, the timestamps marked
    with a final Z; an end precedes a begin when its digits sort first. *)
Definition CRLF : pystr := [13; 10].

Definition compact_stamp (s : pystr) : pystr :=
  filter (fun c => negb ((c =? HYPHEN) || (c =? COLON))) s.

Definition plain_fromisoformat (s : pystr) : option pystr :=
  if ((List.length s =? 19)%nat && (nth 10 s 0 =? LETTER_T))%bool
  then Some (compact_stamp s) else None.

Definition plain_event_lines (e : ics_event pystr) : list pystr :=
  [ str "BEGIN:VEVENT";
    str "DTEND:" ++ end_ e ++ [LETTER_Z];
    str "DTSTART:" ++ begin e ++ [LETTER_Z];
    str "SUMMARY:" ++ name e;
    str "END:VEVENT" ].

Definition plain_serialize (cal : list (ics_event pystr)) : pystr :=
  join CRLF ([ str "BEGIN:VCALENDAR"; str "VERSION:2.0";
               str "PRODID:ics.py - http://git.io/lLljaA" ]
             ++ flat_map plain_event_lines cal
             ++ [ str "END:VCALENDAR" ]).

Definition plain_calendar : calendar_lib :=
  {| datetime := pystr;
     fromisoformat := plain_fromisoformat;
     end_precedes := str_ltb;
     serialize := plain_serialize |}.

(** ** The accounts and the remaining routes *)

(** The events of a text, line after line. *)
Definition text_events (date_str text : pystr) : list event :=
  flat_map (line_events date_str) (split NL text).

Fixpoint str_eqb (a b : pystr) : bool :=
  match a, b with
  | [], [] => true
  | x :: a', y :: b' => (x =? y) && str_eqb a' b'
  | _, _ => false
  end.

(** A row of the [users] table. *)
Record user : Type := mk_user {
  uid : Z;
  username : pystr;
  hashed_password : pystr
}.

(** What the routes get from passlib and from the database.
    [pw_hash password salt] stands for [pwd_context.hash(password)], the
    salt being what the call draws at random; [pw_verify password hash]
    stands for [pwd_context.verify(password, hash)].  Both may raise:
    passlib refuses a password that is too long, and [verify] a hash it
    cannot identify.  [next_id users] is the primary key the database
    gives to a row added to [users]. *)
Record accounts_lib : Type := {
  pw_hash : pystr -> pystr -> result pystr;
  pw_verify : pystr -> pystr -> result bool;
  next_id : list user -> Z
}.

(** [db.query(User).filter(User.username == name).first()] and
    [db.query(User).filter(User.id == i).first()]. *)
Definition user_by_name (users : list user) (name : pystr) : option user :=
  find (fun u => str_eqb (username u) name) users.

Definition user_by_id (users : list user) (i : Z) : option user :=
  find (fun u => (uid u =? i)%Z) users.

(** [db.query(User).filter(User.id == user_id).first() if user_id else None]
    of lines 82 and 114. *)
Definition current_user (users : list user) (session_user : option Z)
  : option user :=
  match truthy_id session_user with
  | Some i => user_by_id users i
  | None => None
  end.

(** What a route answers with: a redirect, or the page [index.html] with
    the entries of its context that the route sets. *)
Inductive page : Type :=
| Redirect (url : pystr)
| IndexPage (shown_user : option user) (shown_events : option (list event))
            (today : pystr) (error : option pystr).

Definition bad_login : pystr :=
  [1053; 1077; 1074; 1077; 1088; 1085; 1099; 1081; 32; 1083; 1086; 1075;
   1080; 1085; 32; 1080; 1083; 1080; 32; 1087; 1072; 1088; 1086; 1083; 1100].

Definition user_exists : pystr :=
  [1055; 1086; 1083; 1100; 1079; 1086; 1074; 1072; 1090; 1077; 1083; 1100;
   32; 1091; 1078; 1077; 32; 1089; 1091; 1097; 1077; 1089; 1090; 1074;
   1091; 1077; 1090].

Definition no_events_found : pystr :=
  [1057; 1086; 1073; 1099; 1090; 1080; 1103; 32; 1085; 1077; 32; 1085;
   1072; 1081; 1076; 1077; 1085; 1099; 32; 1074; 32; 1092; 1072; 1081;
   1083; 1077].

Definition parse_error : pystr :=
  [1054; 1096; 1080; 1073; 1082; 1072; 32; 1087; 1072; 1088; 1089; 1080;
   1085; 1075; 1072; 58; 32].

(** Lines 79-87; [now_date] is [datetime.now().strftime("%Y-%m-%d")]. *)
Definition home (users : list user) (session_user : option Z)
           (now_date : pystr) (error : option pystr) : page :=
  IndexPage (current_user users session_user) None now_date error.

(** Lines 89-95: the answer and the session's [user_id] afterwards.
    [verify] is called only when a row was found. *)
Definition login (A : accounts_lib) (users : list user)
           (session_user : option Z) (name password : pystr)
  : result (page * option Z) :=
  match user_by_name users name with
  | Some u =>
      verified <- pw_verify A password (hashed_password u) ;;
      if (verified : bool)
      then Ok (Redirect (str "/"), Some (uid u))
      else Ok (Redirect (str "/?error=" ++ bad_login), session_user)
  | None => Ok (Redirect (str "/?error=" ++ bad_login), session_user)
  end.

(** Lines 97-104: the answer and the [users] table afterwards.  The
    password is hashed before the row is added, so a call that raises
    adds nothing. *)
Definition register (A : accounts_lib) (users : list user)
           (name password salt : pystr) : result (page * list user) :=
  match user_by_name users name with
  | Some _ => Ok (Redirect (str "/?error=" ++ user_exists), users)
  | None =>
      hash <- pw_hash A password salt ;;
      Ok (Redirect (str "/"), users ++ [mk_user (next_id A users) name hash])
  end.

(** Lines 106-109: [request.session.clear()]. *)
Definition logout (session_user : option Z) : page * option Z :=
  (Redirect (str "/"), None).

(** Lines 111-123.  [describe e] is [str(e)]; the file name is the one the
    browser sent. *)
Definition upload (L : extractors) (describe : exn -> pystr)
           (users : list user) (session_user : option Z)
           (file_bytes : bytes) (filename event_date : pystr) : page :=
  let user := current_user users session_user in
  match parse_content L file_bytes filename event_date with
  | Ok [] => Redirect (str "/?error=" ++ no_events_found)
  | Ok events => IndexPage user (Some events) event_date None
  | Raise e => Redirect (str "/?error=" ++ parse_error ++ describe e)
  end.

(** A run of [register] calls, each with its name, password and salt; a
    call that raises leaves the table as it was. *)
Definition register_step (A : accounts_lib) (users : list user)
           (c : pystr * pystr * pystr) : list user :=
  match register A users (fst (fst c)) (snd (fst c)) (snd c) with
  | Ok (_, users') => users'
  | Raise _ => users
  end.

Definition register_all (A : accounts_lib)
           (calls : list (pystr * pystr * pystr)) (users : list user)
  : list user :=
  fold_left (register_step A) calls users.




(** [open(path).read()] for a file the route wrote: the last text written
    under that name. *)
Fixpoint read_file (fs : list (pystr * pystr)) (path : pystr) : option pystr :=
  match fs with
  | [] => None
  | (p, content) :: rest =>
      if str_eqb p path then Some content else read_file rest path
  end.

Definition export_path (u : Z) : pystr :=
  str "export_" ++ str_of_int u ++ str ".ics".

(** A stand-in for passlib and the database, for closed examples: the
    hash is the salt, a bar and the password; a password of more than
    4096 characters is refused, and so is a hash without a bar; keys
    count up from 1. *)
Definition too_long (password : pystr) : bool :=
  4096 <? N.of_nat (List.length password).

Definition plain_accounts : accounts_lib :=
  {| pw_hash := fun password salt =>
                  if too_long password
                  then Raise (LibraryError (str "PasswordSizeError"))
                  else Ok (salt ++ [124] ++ password);
     pw_verify := fun password hash =>
                    if too_long password
                    then Raise (LibraryError (str "PasswordSizeError"))
                    else match split 124 hash with
                         | _ :: first :: rest =>
                             Ok (str_eqb (join [124] (first :: rest)) password)
                         | _ => Raise (LibraryError (str "UnknownHashError"))
                         end;
     next_id := fun users => (1 + fold_right Z.max 0 (map uid users))%Z |}.

(** What one selected index contributes to the calendar and to the saved
    list when its turn of the loop goes through. *)
Definition export_entry (C : calendar_lib) (titles starts ends : list pystr)
           (i : Z) (ev : ics_event (datetime C)) (sv : saved_event) : Prop :=
  exists s e clock,
    getitem titles i = Ok (name ev) /\
    getitem starts i = Ok s /\
    getitem ends i = Ok e /\
    fromisoformat C s = Some (begin ev) /\
    fromisoformat C e = Some (end_ ev) /\
    end_precedes C (end_ ev) (begin ev) = false /\
    getitem (split LETTER_T s) 1%Z = Ok clock /\
    sv = mk_saved (name ev) (slice_to 5 clock).

(** An index a list of length [n] accepts: from [-n] to [n - 1]. *)
Definition index_in_range (n : nat) (i : Z) : Prop :=
  (- Z.of_nat n <= i < Z.of_nat n)%Z.

(** A negative index written as the position it stands for. *)
Definition from_start (n : nat) (i : Z) : Z :=
  if (i <? 0)%Z then (i + Z.of_nat n)%Z else i.


(** ** An empty calendar document

    The frame of an iCalendar file with nothing in it: the line
    [BEGIN:VCALENDAR], property lines, the line [END:VCALENDAR], joined by
    CR LF.  A property line has a name before its first colon, the name is
    not [BEGIN] or [END] (so no component is opened), and the line has no
    line break in it. *)
Definition not_colon (c : char) : bool := negb (c =? COLON).

Definition property_name (l : pystr) : pystr := takewhile not_colon l.

Definition property_line (l : pystr) : Prop :=
  In COLON l /\
  property_name l <> [] /\
  property_name l <> str "BEGIN" /\
  property_name l <> str "END" /\
  ~ In 13 l /\ ~ In 10 l.

Definition calendar_frame (props : list pystr) : pystr :=
  join CRLF (str "BEGIN:VCALENDAR" :: props ++ [str "END:VCALENDAR"]).

Definition empty_calendar_document (text : pystr) : Prop :=
  exists props, text = calendar_frame props /\ Forall property_line props.

(** What is asked of the library for a calendar without events: it
    renders such a frame, and the names of its properties have no Z. *)
Definition renders_empty_calendar (C : calendar_lib) : Prop :=
  exists props,
    serialize C [] = calendar_frame props /\
    Forall property_line props /\
    Forall (fun l => ~ In LETTER_Z (property_name l)) props.

(** * Properties *)

(** ** Character classes *)

Lemma in_ranges_disjoint t1 t2 c :
  ranges_disjoint t1 t2 = true -> in_ranges c t1 = true -> in_ranges c t2 = false.
Proof.
  unfold ranges_disjoint, in_ranges. intros D H1.
  apply existsb_exists in H1 as [r1 [I1 B1]].
  rewrite forallb_forall in D. specialize (D r1 I1). rewrite forallb_forall in D.
  destruct (existsb _ t2) eqn:E; [|reflexivity].
  apply existsb_exists in E as [r2 [I2 B2]].
  specialize (D r2 I2).
  apply andb_true_iff in B1 as [B1a B1b]. apply andb_true_iff in B2 as [B2a B2b].
  apply N.leb_le in B1a, B1b, B2a, B2b.
  apply orb_true_iff in D as [D|D]; apply N.ltb_lt in D; lia.
Qed.

Lemma digit_not_space c : isdecimal c = true -> isspace c = false.
Proof. apply in_ranges_disjoint. vm_compute. reflexivity. Qed.

Lemma sep_cases c : colon_or_period c = true -> c = COLON \/ c = PERIOD.
Proof.
  unfold colon_or_period. cbn [existsb]. rewrite !orb_true_iff, !N.eqb_eq. intuition congruence.
Qed.
Lemma dash_cases c : hyphen_or_dash c = true -> c = HYPHEN \/ c = EN_DASH.
Proof.
  unfold hyphen_or_dash. cbn [existsb]. rewrite !orb_true_iff, !N.eqb_eq. intuition congruence.
Qed.
Lemma sep_not_digit c : colon_or_period c = true -> isdecimal c = false.
Proof. intros H; destruct (sep_cases c H); subst; reflexivity. Qed.
Lemma digit_not_sep c : isdecimal c = true -> colon_or_period c = false.
Proof.
  intros H. destruct (colon_or_period c) eqn:E; [|reflexivity].
  apply sep_not_digit in E. congruence.
Qed.
Lemma dash_not_space c : hyphen_or_dash c = true -> isspace c = false.
Proof. intros H; destruct (dash_cases c H); subst; reflexivity. Qed.
Lemma space_not_dash c : isspace c = true -> hyphen_or_dash c = false.
Proof.
  intros H. destruct (hyphen_or_dash c) eqn:E; [|reflexivity].
  apply dash_not_space in E. congruence.
Qed.
Lemma space_not_digit c : isspace c = true -> isdecimal c = false.
Proof.
  intros H. destruct (isdecimal c) eqn:E; [|reflexivity].
  apply digit_not_space in E. congruence.
Qed.

(** ** Strings *)

Lemma takewhile_dropwhile p s : takewhile p s ++ dropwhile p s = s.
Proof.
  induction s as [|c s IH]; simpl; [reflexivity|].
  destruct (p c); simpl; [now rewrite IH | reflexivity].
Qed.

Lemma firstn_takewhile p s :
  firstn (List.length s - List.length (dropwhile p s)) s = takewhile p s.
Proof.
  rewrite <- (takewhile_dropwhile p s) at 1 3.
  rewrite length_app, Nat.add_sub. now rewrite firstn_app, Nat.sub_diag, firstn_all, app_nil_r.
Qed.

Lemma dropwhile_all p s t :
  Forall (fun c => p c = true) s -> dropwhile p (s ++ t) = dropwhile p t.
Proof.
  induction 1 as [|c s Hc _ IH]; simpl; [reflexivity|]. now rewrite Hc.
Qed.

Lemma dropwhile_stop p c s : p c = false -> dropwhile p (c :: s) = c :: s.
Proof. intros H; simpl; now rewrite H. Qed.

Lemma dropwhile_idem p s : dropwhile p (dropwhile p s) = dropwhile p s.
Proof.
  induction s as [|c s IH]; simpl; [reflexivity|].
  destruct (p c) eqn:E; [exact IH | simpl; now rewrite E].
Qed.

Lemma takewhile_all p s : Forall (fun c => p c = true) s -> takewhile p s = s.
Proof.
  induction 1 as [|c s Hc _ IH]; simpl; [reflexivity|]. now rewrite Hc, IH.
Qed.

Lemma strip_lstrip s : strip (dropwhile isspace s) = strip s.
Proof. unfold strip, lstrip. now rewrite dropwhile_idem. Qed.

Lemma filter_keeps_all {A : Type} (f : A -> bool) l :
  (forall x, In x l -> f x = true) -> filter f l = l.
Proof.
  induction l as [|a l IH]; cbn; [reflexivity|]. intros H.
  rewrite (H a (or_introl eq_refl)), IH; [reflexivity|].
  intros x Hx. apply H. now right.
Qed.

Lemma str_eqb_eq a b : str_eqb a b = true <-> a = b.
Proof.
  revert b. induction a as [|x a IH]; intros [|y b]; cbn;
    try (split; [discriminate | discriminate]); [tauto|].
  rewrite andb_true_iff, N.eqb_eq, IH. split.
  - now intros [-> ->].
  - now intros [= -> ->].
Qed.

Lemma str_eqb_refl a : str_eqb a a = true.
Proof. now apply str_eqb_eq. Qed.

(** ** The matcher on the pattern *)

Arguments isdecimal : simpl never.
Arguments isspace : simpl never.
Arguments colon_or_period : simpl never.
Arguments hyphen_or_dash : simpl never.

Lemma rep_star_rejecting c k :
  (forall x s' caps, class_match c x = true -> k (x :: s') caps = None) ->
  forall s caps,
    rep_greedy c 0 None s caps k = k (dropwhile (class_match c) s) caps.
Proof.
  intros Hk s caps. induction s as [|x s IH]; simpl; [reflexivity|].
  destruct (class_match c x) eqn:E; simpl.
  - rewrite IH. destruct (k (dropwhile (class_match c) s) caps) eqn:K; [reflexivity|].
    now apply Hk.
  - reflexivity.
Qed.

Lemma rep_star_accepting c k s caps g :
  k (dropwhile (class_match c) s) caps = Some g ->
  rep_greedy c 0 None s caps k = Some g.
Proof.
  induction s as [|x s IH]; simpl; [now intros ->|].
  destruct (class_match c x) eqn:E; simpl.
  - intros H. now rewrite (IH H).
  - now intros ->.
Qed.

Lemma scan_time_split s t r : scan_time s = Some (t, r) -> s = t ++ r.
Proof.
  unfold scan_time.
  destruct s as [|a [|b rest1]]; try discriminate.
  destruct (isdecimal a && isdecimal b).
  - destruct rest1 as [|c [|d [|e rest]]]; try discriminate.
    destruct (colon_or_period c && isdecimal d && isdecimal e); [|discriminate].
    now intros [= <- <-].
  - destruct (isdecimal a && colon_or_period b); [|discriminate].
    destruct rest1 as [|c [|d rest]]; try discriminate.
    destruct (isdecimal c && isdecimal d); [|discriminate].
    now intros [= <- <-].
Qed.

Lemma rep_done c s caps k : rep_greedy c 0 (Some 0%nat) s caps k = k s caps.
Proof. destruct s; cbn; [reflexivity|]. now rewrite andb_false_r. Qed.

Lemma same_option {A : Type} (o : option A) :
  match o with Some g => Some g | None => None end = o.
Proof. now destruct o. Qed.

Lemma rep_digit_exact2 s caps k :
  rep_greedy Digit 2 (Some 2%nat) s caps k =
  match s with
  | d :: e :: rest => if isdecimal d && isdecimal e then k rest caps else None
  | _ => None
  end.
Proof.
  destruct s as [|d [|e rest]]; cbn.
  - reflexivity.
  - destruct (isdecimal d); reflexivity.
  - destruct (isdecimal d); cbn; [|reflexivity].
    destruct (isdecimal e); cbn; [|reflexivity].
    rewrite rep_done. now rewrite !same_option.
Qed.

Lemma rep_digit_1or2 s caps k :
  (forall x s' caps', isdecimal x = true -> k (x :: s') caps' = None) ->
  rep_greedy Digit 1 (Some 2%nat) s caps k =
  match s with
  | [] => None
  | a :: r =>
      if isdecimal a then
        match r with
        | b :: r' => if isdecimal b then k r' caps else k r caps
        | [] => k [] caps
        end
      else None
  end.
Proof.
  intros Hk. destruct s as [|a [|b r']]; cbn.
  - reflexivity.
  - destruct (isdecimal a); cbn; [|reflexivity]. now rewrite same_option.
  - destruct (isdecimal a); cbn; [|reflexivity].
    destruct (isdecimal b) eqn:Eb; cbn.
    + rewrite rep_done. rewrite (Hk b r' caps Eb).
      now rewrite !same_option.
    + now rewrite same_option.
Qed.

Lemma run_time_re s caps k :
  run time_re s caps k =
  match scan_time s with
  | Some (_, r) => k r caps
  | None => None
  end.
Proof.
  unfold time_re, scan_time. cbn [run].
  rewrite rep_digit_1or2.
  2:{ intros x s' caps' Hx. cbn [class_match].
      change (existsb (N.eqb x) [COLON; PERIOD]) with (colon_or_period x).
      now rewrite (digit_not_sep x Hx). }
  cbn [class_match].
  destruct s as [|a [|b rest1]]; [reflexivity| |].
  - destruct (isdecimal a); reflexivity.
  - change (existsb (N.eqb b) [COLON; PERIOD]) with (colon_or_period b).
    destruct (isdecimal a) eqn:Ea; cbn [andb]; [|reflexivity].
    destruct (isdecimal b) eqn:Eb.
    + destruct rest1 as [|c rest2]; [reflexivity|].
      change (existsb (N.eqb c) [COLON; PERIOD]) with (colon_or_period c).
      rewrite rep_digit_exact2.
      destruct rest2 as [|d [|e rest]]; try (destruct (colon_or_period c); reflexivity).
      destruct (colon_or_period c); cbn [andb]; [|reflexivity].
      destruct (isdecimal d && isdecimal e); reflexivity.
    + destruct (colon_or_period b); [|reflexivity].
      rewrite rep_digit_exact2.
      destruct rest1 as [|c [|d rest]]; try reflexivity.
      destruct (isdecimal c && isdecimal d); reflexivity.
Qed.

Lemma run_grp_time_re s caps k :
  run (Grp time_re) s caps k =
  match scan_time s with
  | Some (t, r) => k r (caps ++ [t])
  | None => None
  end.
Proof.
  cbn [run]. rewrite run_time_re.
  destruct (scan_time s) as [[t r]|] eqn:E; [|reflexivity].
  apply scan_time_split in E. subst s.
  now rewrite length_app, Nat.add_sub, firstn_app, Nat.sub_diag, firstn_all, app_nil_r.
Qed.

Lemma scan_time_needs_digit x s : isdecimal x = false -> scan_time (x :: s) = None.
Proof.
  intros H. unfold scan_time. destruct s as [|b r]; [reflexivity|].
  now rewrite H.
Qed.

Lemma dropwhile_space_class s : dropwhile (class_match Space) s = dropwhile isspace s.
Proof. reflexivity. Qed.

Lemma run_dash_re s caps k :
  (forall x s' caps', isspace x = true -> k (x :: s') caps' = None) ->
  run dash_re s caps k =
  match scan_dash s with
  | Some s2 => k s2 caps
  | None => None
  end.
Proof.
  intros Hk. unfold dash_re, scan_dash. cbn [run].
  rewrite rep_star_rejecting.
  2:{ intros x s' caps' Hx. cbn [class_match] in *.
      change (existsb (N.eqb x) [HYPHEN; EN_DASH]) with (hyphen_or_dash x).
      now rewrite (space_not_dash x Hx). }
  rewrite dropwhile_space_class.
  destruct (dropwhile isspace s) as [|d s']; [reflexivity|].
  cbn [class_match].
  change (existsb (N.eqb d) [HYPHEN; EN_DASH]) with (hyphen_or_dash d).
  destruct (hyphen_or_dash d); [|reflexivity].
  rewrite rep_star_rejecting by exact Hk.
  now rewrite dropwhile_space_class.
Qed.

Lemma run_title s caps :
  run (Cat (Rep Space 0 None) (Grp (Rep AnyChar 0 None))) s caps
      (fun _ c => Some c)
  = Some (caps ++ [takewhile not_newline (dropwhile isspace s)]).
Proof.
  cbn [run]. apply rep_star_accepting. rewrite dropwhile_space_class.
  apply rep_star_accepting.
  change (class_match AnyChar) with not_newline.
  now rewrite firstn_takewhile.
Qed.

(** The matcher anchored at the start of [s] computes [scan_groups s]. *)
Lemma re_match_pattern s : re_match pattern s = scan_groups s.
Proof.
  change (re_match pattern s) with
    (run (Grp time_re) s []
       (fun s1 c1 => run dash_re s1 c1
          (fun s2 c2 => run (Grp time_re) s2 c2
             (fun s3 c3 =>
                run (Cat (Rep Space 0 None) (Grp (Rep AnyChar 0 None))) s3 c3
                    (fun _ c => Some c))))).
  unfold scan_groups, scan_range.
  rewrite run_grp_time_re.
  destruct (scan_time s) as [[t1 s1]|]; [|reflexivity].
  rewrite run_dash_re.
  - destruct (scan_dash s1) as [s2|]; [|reflexivity].
    rewrite run_grp_time_re.
    destruct (scan_time s2) as [[t2 s3]|]; [|reflexivity].
    exact (run_title s3 (([] ++ [t1]) ++ [t2])).
  - intros x s' caps' Hx. rewrite run_grp_time_re.
    now rewrite (scan_time_needs_digit x s' (space_not_digit x Hx)).
Qed.

(** ** The deterministic reading against the vocabulary *)

Lemma scan_time_token tok rest :
  time_token tok -> scan_time (tok ++ rest) = Some (tok, rest).
Proof.
  intros (h & c & m & -> & Hh & Dh & Hc & Hm & Dm).
  destruct m as [|m1 [|m2 [|? ?]]]; try discriminate Hm.
  inversion Dm as [|? ? D1 Dm']; subst. inversion Dm' as [|? ? D2 _]; subst.
  unfold is_digit in *.
  destruct Hh as [Hh|Hh].
  - destruct h as [|a [|? ?]]; try discriminate Hh.
    inversion Dh as [|? ? Da _]; subst. unfold is_digit in Da.
    cbn. rewrite Da, (sep_not_digit c Hc), Hc, D1, D2. reflexivity.
  - destruct h as [|a [|b [|? ?]]]; try discriminate Hh.
    inversion Dh as [|? ? Da Dh']; subst. inversion Dh' as [|? ? Db _]; subst.
    unfold is_digit in Da, Db.
    cbn. rewrite Da, Db, Hc, D1, D2. reflexivity.
Qed.

Lemma scan_time_sound s tok rest :
  scan_time s = Some (tok, rest) -> time_token tok /\ s = tok ++ rest.
Proof.
  intros H. split; [|now apply scan_time_split].
  unfold scan_time in H.
  destruct s as [|a [|b rest1]]; try discriminate.
  destruct (isdecimal a) eqn:Ea; cbn [andb] in H; [|discriminate].
  destruct (isdecimal b) eqn:Eb.
  - destruct rest1 as [|c [|d [|e r]]]; try discriminate.
    destruct (colon_or_period c) eqn:Ec; cbn [andb] in H; [|discriminate].
    destruct (isdecimal d) eqn:Ed; cbn [andb] in H; [|discriminate].
    destruct (isdecimal e) eqn:Ee; [|discriminate].
    injection H as <- <-.
    exists [a; b], c, [d; e]. repeat split; auto; repeat constructor; assumption.
  - destruct (colon_or_period b) eqn:Ec; [|discriminate].
    destruct rest1 as [|c [|d r]]; try discriminate.
    destruct (isdecimal c) eqn:Ed; cbn [andb] in H; [|discriminate].
    destruct (isdecimal d) eqn:Ee; [|discriminate].
    injection H as <- <-.
    exists [a], b, [c; d]. repeat split; auto; repeat constructor; assumption.
Qed.

Lemma time_token_starts_with_digit tok :
  time_token tok -> exists a r, tok = a :: r /\ isdecimal a = true.
Proof.
  intros (h & c & m & -> & Hh & Dh & _).
  destruct h as [|a h']; [destruct Hh; discriminate|].
  inversion Dh; subst. now exists a, (h' ++ c :: m).
Qed.

Lemma time_token_ends_with_digit tok :
  time_token tok -> exists r z, tok = r ++ [z] /\ isdecimal z = true.
Proof.
  intros (h & c & m & -> & _ & _ & _ & Hm & Dm).
  destruct m as [|m1 [|m2 [|? ?]]]; try discriminate Hm.
  inversion Dm as [|? ? _ Dm']; subst. inversion Dm' as [|? ? D2 _]; subst.
  exists (h ++ [c; m1]), m2. split; [|exact D2].
  now rewrite <- app_assoc.
Qed.

Lemma takewhile_Forall p s : Forall (fun c => p c = true) (takewhile p s).
Proof.
  induction s as [|c s IH]; simpl; [constructor|].
  destruct (p c) eqn:E; constructor; assumption.
Qed.

Lemma dropwhile_head p s c r : dropwhile p s = c :: r -> p c = false.
Proof.
  induction s as [|x s IH]; simpl; [discriminate|].
  destruct (p x) eqn:E; [exact IH|]. now intros [= <- <-].
Qed.

Lemma scan_dash_spec ws1 d ws2 r :
  Forall is_space ws1 -> hyphen_or_dash d = true -> Forall is_space ws2 ->
  scan_dash (ws1 ++ d :: ws2 ++ r) = Some (dropwhile isspace r).
Proof.
  intros H1 Hd H2. unfold scan_dash.
  rewrite (dropwhile_all isspace ws1) by exact H1.
  rewrite dropwhile_stop by now apply dash_not_space.
  rewrite Hd. now rewrite (dropwhile_all isspace ws2) by exact H2.
Qed.

Lemma scan_dash_sound s s2 :
  scan_dash s = Some s2 ->
  exists ws1 d ws2,
    s = ws1 ++ d :: ws2 ++ s2 /\
    Forall is_space ws1 /\ hyphen_or_dash d = true /\ Forall is_space ws2.
Proof.
  unfold scan_dash. intros H.
  destruct (dropwhile isspace s) as [|d s'] eqn:E; [discriminate|].
  destruct (hyphen_or_dash d) eqn:Hd; [|discriminate].
  injection H as <-.
  exists (takewhile isspace s), d, (takewhile isspace s').
  repeat split.
  - rewrite takewhile_dropwhile, <- E. symmetry. apply takewhile_dropwhile.
  - apply takewhile_Forall.
  - exact Hd.
  - apply takewhile_Forall.
Qed.

Lemma scan_range_complete u s e rest :
  time_range u s e -> scan_range (u ++ rest) = Some (s, e, rest).
Proof.
  intros (ws1 & d & ws2 & -> & Hs & He & H1 & Hd & H2).
  unfold scan_range.
  rewrite <- app_assoc. rewrite (scan_time_token s _ Hs).
  rewrite <- app_assoc. cbn [app]. rewrite <- app_assoc.
  rewrite (scan_dash_spec ws1 d ws2 _ H1 Hd H2).
  destruct (time_token_starts_with_digit e He) as (a & r & Ee & Da).
  assert (Hdrop : dropwhile isspace (e ++ rest) = e ++ rest).
  { rewrite Ee. cbn [app]. apply dropwhile_stop. now apply digit_not_space. }
  rewrite Hdrop, (scan_time_token e rest He). reflexivity.
Qed.

Lemma scan_range_sound l s e rest :
  scan_range l = Some (s, e, rest) ->
  exists u, l = u ++ rest /\ time_range u s e.
Proof.
  unfold scan_range. intros H.
  destruct (scan_time l) as [[t1 s1]|] eqn:E1; [|discriminate].
  destruct (scan_dash s1) as [s2|] eqn:E2; [|discriminate].
  destruct (scan_time s2) as [[t2 s3]|] eqn:E3; [|discriminate].
  injection H as <- <- <-.
  apply scan_time_sound in E1 as [T1 ->].
  apply scan_time_sound in E3 as [T2 ->].
  apply scan_dash_sound in E2 as (ws1 & d & ws2 & -> & H1 & Hd & H2).
  exists (t1 ++ ws1 ++ d :: ws2 ++ t2). split.
  - rewrite <- !app_assoc. cbn [app]. now rewrite <- !app_assoc.
  - exists ws1, d, ws2. repeat split; assumption.
Qed.

(** ** [re.search]: the leftmost position *)

Lemma search_from_shift r pos s :
  search_from r pos s =
  match search_from r 0 s with
  | Some (i, g) => Some ((pos + i)%nat, g)
  | None => None
  end.
Proof.
  revert pos. induction s as [|x s IH]; intros pos; cbn.
  - destruct (re_match r []); [now rewrite Nat.add_0_r | reflexivity].
  - destruct (re_match r (x :: s)); [now rewrite Nat.add_0_r|].
    rewrite (IH (S pos)), (IH 1%nat).
    destruct (search_from r 0 s) as [[i g]|]; [|reflexivity].
    now rewrite Nat.add_succ_r.
Qed.

Lemma re_search_here r s g : re_match r s = Some g -> re_search r s = Some (O, g).
Proof. intros H. unfold re_search. destruct s; cbn; now rewrite H. Qed.

Lemma re_search_later r x s :
  re_match r (x :: s) = None ->
  re_search r (x :: s) =
  match re_search r s with
  | Some (i, g) => Some (S i, g)
  | None => None
  end.
Proof.
  intros H. unfold re_search. cbn. rewrite H. apply (search_from_shift r 1 s).
Qed.

(** A successful search splits the subject at the position it reports:
    the pattern matches there and at no earlier position. *)
Lemma re_search_some r s pos g :
  re_search r s = Some (pos, g) ->
  exists pre suf,
    s = pre ++ suf /\ List.length pre = pos /\ re_match r suf = Some g /\
    forall pre' suf', s = pre' ++ suf' -> (List.length pre' < pos)%nat ->
                      re_match r suf' = None.
Proof.
  revert pos. induction s as [|x s IH]; intros pos H.
  - unfold re_search in H. cbn in H.
    destruct (re_match r []) eqn:E; [|discriminate]. injection H as <- <-.
    exists [], []. repeat split; auto. intros ? ? _ Hlt. inversion Hlt.
  - destruct (re_match r (x :: s)) eqn:E.
    + rewrite (re_search_here _ _ _ E) in H. injection H as <- <-.
      exists [], (x :: s). repeat split; auto. intros ? ? _ Hlt. inversion Hlt.
    + rewrite (re_search_later _ _ _ E) in H.
      destruct (re_search r s) as [[i g']|] eqn:Es; [|discriminate].
      injection H as <- <-.
      destruct (IH i eq_refl) as (pre & suf & -> & Hlen & Hm & Hmin).
      exists (x :: pre), suf. repeat split; cbn; auto.
      intros pre' suf' Heq Hlt.
      destruct pre' as [|y pre'].
      * cbn in Heq. subst suf'. exact E.
      * cbn in Heq. injection Heq as -> Heq.
        apply (Hmin pre' suf' Heq). cbn in Hlt. lia.
Qed.

Lemma re_search_none r s :
  re_search r s = None ->
  forall pre suf, s = pre ++ suf -> re_match r suf = None.
Proof.
  induction s as [|x s IH]; intros H pre suf Heq.
  - symmetry in Heq. apply app_eq_nil in Heq as [-> ->].
    unfold re_search in H. cbn in H. now destruct (re_match r []).
  - destruct (re_match r (x :: s)) eqn:E.
    + now rewrite (re_search_here _ _ _ E) in H.
    + rewrite (re_search_later _ _ _ E) in H.
      destruct (re_search r s) as [[i g']|] eqn:Es; [discriminate|].
      destruct pre as [|y pre].
      * cbn in Heq. now subst suf.
      * cbn in Heq. injection Heq as -> Heq. now apply (IH eq_refl pre suf).
Qed.

(** ** What [re.search] finds with the pattern *)

Lemma re_search_pattern_groups line pos g :
  re_search pattern line = Some (pos, g) ->
  exists s e rest,
    g = [s; e; takewhile not_newline (dropwhile isspace rest)] /\
    range_at line pos s e rest /\
    forall pos' s' e' rest',
      range_at line pos' s' e' rest' -> (pos <= pos')%nat.
Proof.
  intros H.
  destruct (re_search_some _ _ _ _ H) as (pre & suf & -> & Hlen & Hm & Hmin).
  rewrite re_match_pattern in Hm. unfold scan_groups in Hm.
  destruct (scan_range suf) as [[[s e] rest]|] eqn:E; [|discriminate].
  injection Hm as <-.
  destruct (scan_range_sound _ _ _ _ E) as (u & -> & Hu).
  exists s, e, rest. split; [reflexivity|]. split.
  - exists pre, u. auto.
  - intros pos' s' e' rest' (pre' & u' & Heq & Hlen' & Hu').
    destruct (Nat.le_gt_cases pos pos') as [Hle|Hlt]; [exact Hle|].
    exfalso. subst pos'.
    pose proof (Hmin pre' (u' ++ rest') Heq ltac:(lia)) as Hnone.
    rewrite re_match_pattern in Hnone. unfold scan_groups in Hnone.
    now rewrite (scan_range_complete u' s' e' rest' Hu') in Hnone.
Qed.

Lemma range_at_matches line pos s e rest :
  range_at line pos s e rest -> matches line.
Proof.
  intros (pre & u & -> & _ & Hu) Hnone.
  pose proof (re_search_none _ _ Hnone pre (u ++ rest) eq_refl) as H.
  rewrite re_match_pattern in H. unfold scan_groups in H.
  now rewrite (scan_range_complete u s e rest Hu) in H.
Qed.

Lemma matches_iff_time_range line : matches line <-> has_time_range line.
Proof.
  split.
  - intros H. unfold matches in H.
    destruct (re_search pattern line) as [[pos g]|] eqn:E; [|congruence].
    destruct (re_search_pattern_groups _ _ _ E) as (s & e & rest & _ & Hr & _).
    now exists pos, s, e, rest.
  - intros (pos & s & e & rest & Hr). now apply (range_at_matches line pos s e rest).
Qed.

Lemma app_same_length {A : Type} (a a' b b' : list A) :
  a ++ b = a' ++ b' -> List.length a = List.length a' -> a = a' /\ b = b'.
Proof.
  revert a'. induction a as [|x a IH]; intros [|y a'] H L; try discriminate L.
  - now split.
  - cbn in H. injection H as -> H. injection L as L.
    destruct (IH a' H L) as [-> ->]. now split.
Qed.

Lemma range_at_same_pos line pos s e rest s' e' rest' :
  range_at line pos s e rest -> range_at line pos s' e' rest' ->
  s = s' /\ e = e' /\ rest = rest'.
Proof.
  intros (pre & u & -> & Hlen & Hu) (pre' & u' & Heq & Hlen' & Hu').
  assert (Hpre : pre = pre' /\ u ++ rest = u' ++ rest').
  { apply app_same_length; [exact Heq | congruence]. }
  destruct Hpre as [_ Hsuf].
  pose proof (scan_range_complete u s e rest Hu) as A.
  pose proof (scan_range_complete u' s' e' rest' Hu') as B.
  rewrite Hsuf in A. rewrite A in B. now injection B.
Qed.

(** ** [replace], [split] and the title *)

Lemma startswith_nil s : startswith s [] = true.
Proof. now destruct s. Qed.

Lemma replace_one_char s o n :
  replace s [o] [n] = map (fun c => if c =? o then n else c) s.
Proof.
  unfold replace. induction s as [|c s IH]; [reflexivity|].
  cbn [replace_from startswith map filter List.length pred].
  rewrite startswith_nil, andb_true_r. destruct (c =? o); cbn [negb app]; now rewrite IH.
Qed.

Lemma replace_delete_char s o :
  replace s [o] [] = filter (fun c => negb (c =? o)) s.
Proof.
  unfold replace. induction s as [|c s IH]; [reflexivity|].
  cbn [replace_from startswith map filter List.length pred].
  rewrite startswith_nil, andb_true_r. destruct (c =? o); cbn [negb app]; now rewrite IH.
Qed.

Lemma replace_period s : replace s [PERIOD] [COLON] = colon_time s.
Proof. apply replace_one_char. Qed.

Lemma split_no_newline s : no_newline s -> split NL s = [s].
Proof.
  unfold no_newline. induction s as [|c s IH]; cbn; [reflexivity|].
  intros H. destruct (c =? NL) eqn:E.
  - apply N.eqb_eq in E. tauto.
  - rewrite IH; [reflexivity | tauto].
Qed.

Lemma split_not_empty sep s : split sep s <> [].
Proof.
  destruct s as [|c s]; cbn; [discriminate|].
  destruct (c =? sep); [discriminate|]. destruct (split sep s); discriminate.
Qed.

Lemma split_pieces_no_sep sep s : Forall (fun l => ~ In sep l) (split sep s).
Proof.
  induction s as [|c s IH]; cbn.
  - constructor; [tauto | constructor].
  - destruct (c =? sep) eqn:E.
    + constructor; [tauto | exact IH].
    + apply N.eqb_neq in E.
      destruct (split sep s) as [|l ls]; [repeat constructor; cbn; intuition|].
      inversion IH; subst. constructor; [|assumption].
      cbn. intros [H|H]; [congruence | tauto].
Qed.

Lemma takewhile_no_newline s : no_newline s -> takewhile not_newline s = s.
Proof.
  intros H. apply takewhile_all. apply Forall_forall. intros c Hc.
  unfold not_newline. apply negb_true_iff, N.eqb_neq. intros ->. now apply H.
Qed.

Lemma dropwhile_suffix p s : exists pre, s = pre ++ dropwhile p s.
Proof. exists (takewhile p s). symmetry. apply takewhile_dropwhile. Qed.

Lemma no_newline_app a b : no_newline (a ++ b) <-> no_newline a /\ no_newline b.
Proof. unfold no_newline. rewrite in_app_iff. tauto. Qed.

Lemma no_newline_dropwhile p s : no_newline s -> no_newline (dropwhile p s).
Proof.
  intros H. destruct (dropwhile_suffix p s) as [pre E]. rewrite E in H.
  now apply no_newline_app in H.
Qed.

(** On a line, group 3 is the remainder without its leading whitespace,
    and the title is the remainder stripped. *)
Lemma title_of_remainder rest :
  no_newline rest ->
  strip (takewhile not_newline (dropwhile isspace rest)) = strip rest.
Proof.
  intros H. rewrite takewhile_no_newline by now apply no_newline_dropwhile.
  apply strip_lstrip.
Qed.

(** ** The loop *)

Lemma loop_body_line_events date_str events line :
  loop_body date_str events line = Ok (events ++ line_events date_str line).
Proof.
  unfold loop_body, line_events, event_of_line.
  destruct (re_search pattern line) as [[pos g]|] eqn:E.
  - destruct (re_search_pattern_groups _ _ _ E) as (s & e & rest & -> & _).
    reflexivity.
  - now rewrite app_nil_r.
Qed.

Lemma for_lines_flat_map date_str lines events :
  for_lines date_str lines events =
  Ok (events ++ flat_map (line_events date_str) lines).
Proof.
  revert events. induction lines as [|line rest IH]; intros events; cbn.
  - now rewrite app_nil_r.
  - rewrite loop_body_line_events. cbn. rewrite IH. now rewrite <- app_assoc.
Qed.

(** ** Checks that compute *)

Lemma time_token_check tok : scan_time tok = Some (tok, []) -> time_token tok.
Proof. intros H. now apply scan_time_sound in H. Qed.

Lemma no_newline_check s : forallb not_newline s = true -> no_newline s.
Proof.
  intros H Hin. rewrite forallb_forall in H. specialize (H NL Hin). discriminate.
Qed.

Lemma not_matches_check line : re_search pattern line = None -> ~ has_time_range line.
Proof. intros H Hr. apply matches_iff_time_range in Hr. now apply Hr. Qed.

(** ** What [strip] keeps *)

Lemma lstrip_keeps a x u b :
  isspace x = false ->
  exists a', dropwhile isspace (a ++ (x :: u) ++ b) = a' ++ (x :: u) ++ b.
Proof.
  intros Hx. induction a as [|c a IH].
  - exists []. cbn. now rewrite Hx.
  - cbn [app dropwhile]. destruct (isspace c).
    + exact IH.
    + now exists (c :: a).
Qed.

Lemma strip_keeps a u b x z u1 u2 :
  u = x :: u1 -> u = u2 ++ [z] -> isspace x = false -> isspace z = false ->
  occurs_in u (strip (a ++ u ++ b)).
Proof.
  intros Ex Ez Hx Hz. unfold strip, lstrip, rstrip.
  assert (E1 : exists a', dropwhile isspace (a ++ u ++ b) = a' ++ u ++ b).
  { rewrite Ex. now apply lstrip_keeps. }
  destruct E1 as [a' ->].
  rewrite !rev_app_distr, <- app_assoc.
  assert (E2 : exists b', dropwhile isspace (rev b ++ rev u ++ rev a')
                          = b' ++ rev u ++ rev a').
  { rewrite Ez, rev_app_distr. cbn [rev app]. now apply lstrip_keeps. }
  destruct E2 as [b' ->].
  rewrite !rev_app_distr, !rev_involutive, <- app_assoc.
  now exists a', (rev b').
Qed.

Lemma time_range_kept_by_strip a u b s e :
  time_range u s e -> occurs_in u (strip (a ++ u ++ b)).
Proof.
  intros (ws1 & d & ws2 & -> & Hs & He & _).
  destruct (time_token_starts_with_digit s Hs) as (x & r & Es & Dx).
  destruct (time_token_ends_with_digit e He) as (r' & z & Ee & Dz).
  eapply (strip_keeps a _ b x z).
  - rewrite Es. reflexivity.
  - rewrite Ee. instantiate (1 := s ++ ws1 ++ d :: ws2 ++ r').
    rewrite <- !app_assoc. cbn [app]. now rewrite <- !app_assoc.
  - now apply digit_not_space.
  - now apply digit_not_space.
Qed.

(** ** The candidate of a line with a time range *)

Lemma leftmost_range_is_found line pos s e rest :
  range_at line pos s e rest ->
  (forall pos' s' e' rest', range_at line pos' s' e' rest' -> (pos <= pos')%nat) ->
  re_search pattern line =
  Some (pos, [s; e; takewhile not_newline (dropwhile isspace rest)]).
Proof.
  intros Hr Hmin.
  pose proof (range_at_matches _ _ _ _ _ Hr) as Hm. unfold matches in Hm.
  destruct (re_search pattern line) as [[p g]|] eqn:E; [|congruence].
  destruct (re_search_pattern_groups _ _ _ E)
    as (s1 & e1 & rest1 & -> & Hr1 & Hmin1).
  assert (p = pos) by (specialize (Hmin _ _ _ _ Hr1); specialize (Hmin1 _ _ _ _ Hr); lia).
  subst p.
  destruct (range_at_same_pos _ _ _ _ _ _ _ _ Hr Hr1) as (-> & -> & ->).
  reflexivity.
Qed.

Lemma range_at_start_is_leftmost u s e rest :
  time_range u s e ->
  range_at (u ++ rest) 0 s e rest /\
  forall pos' s' e' rest', range_at (u ++ rest) pos' s' e' rest' -> (0 <= pos')%nat.
Proof.
  intros Hu. split; [|intros; lia].
  exists [], u. auto.
Qed.

Lemma candidate_of_range date_str line pos s e rest :
  no_newline line ->
  range_at line pos s e rest ->
  (forall pos' s' e' rest', range_at line pos' s' e' rest' -> (pos <= pos')%nat) ->
  line_events date_str line =
  [ {| title := strip rest;
       time := s ++ [HYPHEN] ++ e;
       s_iso := date_str ++ [LETTER_T] ++ colon_time s ++ str ":00";
       e_iso := date_str ++ [LETTER_T] ++ colon_time e ++ str ":00" |} ].
Proof.
  intros Hn Hr Hmin. unfold line_events, event_of_line.
  rewrite (leftmost_range_is_found _ _ _ _ _ Hr Hmin).
  unfold candidate. rewrite !replace_period.
  rewrite title_of_remainder; [reflexivity|].
  destruct Hr as (pre & u & -> & _).
  apply no_newline_app in Hn as [_ Hn]. now apply no_newline_app in Hn as [_ Hn].
Qed.

Lemma scan_text_line date_str line :
  no_newline line -> scan_text line date_str = Ok (line_events date_str line).
Proof.
  intros Hn. unfold scan_text. rewrite (split_no_newline line Hn).
  rewrite for_lines_flat_map. cbn. now rewrite app_nil_r.
Qed.

Lemma time_range_check u s e : scan_range u = Some (s, e, []) -> time_range u s e.
Proof.
  intros H. destruct (scan_range_sound _ _ _ _ H) as (u' & E & Hu).
  rewrite app_nil_r in E. now subst u'.
Qed.

(** * The claims *)

(** ** C1

    A line made of a time token, optional whitespace, a hyphen or en dash,
    optional whitespace, a time token and any remainder makes the loop
    append exactly one candidate: its [time] is the two tokens joined by a
    hyphen, its [s_iso] and [e_iso] are the date, [T], the token with the
    period rewritten to a colon and [:00], and its [title] is the
    remainder stripped.  The text consisting of that line gives exactly
    that one candidate. *)
Theorem well_formed_line_gives_its_candidate :
  forall date_str s e ws1 d ws2 rest,
    time_token s -> time_token e ->
    Forall is_space ws1 -> hyphen_or_dash d = true -> Forall is_space ws2 ->
    no_newline (s ++ ws1 ++ d :: ws2 ++ e ++ rest) ->
    let line := s ++ ws1 ++ d :: ws2 ++ e ++ rest in
    let ev := {| title := strip rest;
                 time := s ++ [HYPHEN] ++ e;
                 s_iso := date_str ++ [LETTER_T] ++ colon_time s ++ str ":00";
                 e_iso := date_str ++ [LETTER_T] ++ colon_time e ++ str ":00" |} in
    (forall events, loop_body date_str events line = Ok (events ++ [ev])) /\
    scan_text line date_str = Ok [ev].
Proof.
  intros date_str s e ws1 d ws2 rest Hs He H1 Hd H2 Hn line ev.
  assert (Hu : time_range (s ++ ws1 ++ d :: ws2 ++ e) s e).
  { exists ws1, d, ws2. repeat split; assumption. }
  assert (El : line = (s ++ ws1 ++ d :: ws2 ++ e) ++ rest).
  { unfold line. rewrite <- !app_assoc. cbn [app]. now rewrite <- !app_assoc. }
  destruct (range_at_start_is_leftmost _ s e rest Hu) as [Hr Hmin].
  rewrite <- El in Hr, Hmin.
  assert (Ev : line_events date_str line = [ev]).
  { now apply (candidate_of_range date_str line 0 s e rest). }
  split.
  - intros events. now rewrite loop_body_line_events, Ev.
  - now rewrite scan_text_line, Ev.
Qed.

Lemma well_formed_line_gives_its_candidate_witness :
  time_token (str "09:00") /\ time_token (str "10:30") /\
  no_newline (str "09:00-10:30 Math Lecture") /\
  scan_text (str "09:00-10:30 Math Lecture") (str "2024-05-01") =
  Ok [ {| title := str "Math Lecture";
          time := str "09:00-10:30";
          s_iso := str "2024-05-01T09:00:00";
          e_iso := str "2024-05-01T10:30:00" |} ].
Proof.
  assert (Hs : time_token (str "09:00")) by (apply time_token_check; reflexivity).
  assert (He : time_token (str "10:30")) by (apply time_token_check; reflexivity).
  assert (Hn : no_newline (str "09:00-10:30 Math Lecture"))
    by (apply no_newline_check; reflexivity).
  split; [exact Hs|]. split; [exact He|]. split; [exact Hn|].
  exact (proj2 (well_formed_line_gives_its_candidate
                  (str "2024-05-01") (str "09:00") (str "10:30")
                  [] HYPHEN [] (str " Math Lecture")
                  Hs He (Forall_nil _) eq_refl (Forall_nil _) Hn)).
Defined.

(** The second scenario of the specification: periods in the tokens and an
    en dash with a blank on each side. *)
Example lab_session_line :
  scan_text (str "14.00 " ++ EN_DASH :: str " 15.00 Lab Session") (str "2024-05-01") =
  Ok [ {| title := str "Lab Session";
          time := str "14.00-15.00";
          s_iso := str "2024-05-01T14:00:00";
          e_iso := str "2024-05-01T15:00:00" |} ].
Proof. vm_compute. reflexivity. Qed.

(** ** C3

    A line with more than one time range yields exactly one candidate,
    bound to the leftmost range: [s] and [e] are the tokens of the range
    that starts first, the title is everything after that range up to the
    end of the line (stripped), and a range lying in that remainder is
    part of the title. *)
Theorem leftmost_time_range_wins :
  forall date_str line,
    no_newline line ->
    (exists p1 s1 e1 r1 p2 s2 e2 r2,
        range_at line p1 s1 e1 r1 /\ range_at line p2 s2 e2 r2 /\ p1 <> p2) ->
    exists pos s e rest,
      range_at line pos s e rest /\
      (forall pos' s' e' rest',
          range_at line pos' s' e' rest' -> (pos <= pos')%nat) /\
      scan_text line date_str =
      Ok [ {| title := strip rest;
              time := s ++ [HYPHEN] ++ e;
              s_iso := date_str ++ [LETTER_T] ++ colon_time s ++ str ":00";
              e_iso := date_str ++ [LETTER_T] ++ colon_time e ++ str ":00" |} ] /\
      (forall a u b s' e',
          rest = a ++ u ++ b -> time_range u s' e' -> occurs_in u (strip rest)).
Proof.
  intros date_str line Hn (p1 & s1 & e1 & r1 & _ & _ & _ & _ & Hr1 & _ & _).
  pose proof (range_at_matches _ _ _ _ _ Hr1) as Hm. unfold matches in Hm.
  destruct (re_search pattern line) as [[pos g]|] eqn:E; [|congruence].
  destruct (re_search_pattern_groups _ _ _ E) as (s & e & rest & _ & Hr & Hmin).
  exists pos, s, e, rest. repeat split; try assumption.
  - rewrite scan_text_line by assumption.
    now rewrite (candidate_of_range date_str line pos s e rest).
  - intros a u b s' e' -> Hu. now apply (time_range_kept_by_strip a u b s' e').
Qed.

Lemma leftmost_time_range_wins_witness :
  let line := str "09:00-10:00 Algebra 11:00-12:00 Physics" in
  no_newline line /\
  (exists p1 s1 e1 r1 p2 s2 e2 r2,
      range_at line p1 s1 e1 r1 /\ range_at line p2 s2 e2 r2 /\ p1 <> p2) /\
  exists pos s e rest,
    range_at line pos s e rest /\
    (forall pos' s' e' rest',
        range_at line pos' s' e' rest' -> (pos <= pos')%nat) /\
    scan_text line (str "2024-05-01") =
    Ok [ {| title := strip rest;
            time := s ++ [HYPHEN] ++ e;
            s_iso := str "2024-05-01" ++ [LETTER_T] ++ colon_time s ++ str ":00";
            e_iso := str "2024-05-01" ++ [LETTER_T] ++ colon_time e ++ str ":00" |} ] /\
    (forall a u b s' e',
        rest = a ++ u ++ b -> time_range u s' e' -> occurs_in u (strip rest)).
Proof.
  intros line.
  assert (Hn : no_newline line) by (apply no_newline_check; reflexivity).
  assert (Htwo : exists p1 s1 e1 r1 p2 s2 e2 r2,
             range_at line p1 s1 e1 r1 /\ range_at line p2 s2 e2 r2 /\ p1 <> p2).
  { exists 0%nat, (str "09:00"), (str "10:00"), (str " Algebra 11:00-12:00 Physics"),
      20%nat, (str "11:00"), (str "12:00"), (str " Physics").
    split; [|split].
    - exists [], (str "09:00-10:00"). repeat split.
      apply time_range_check. reflexivity.
    - exists (str "09:00-10:00 Algebra "), (str "11:00-12:00"). repeat split.
      apply time_range_check. reflexivity.
    - discriminate. }
  split; [exact Hn|]. split; [exact Htwo|].
  exact (leftmost_time_range_wins (str "2024-05-01") line Hn Htwo).
Defined.

(** The later range of such a line ends up in the title. *)
Example two_ranges_line :
  scan_text (str "09:00-10:00 Algebra 11:00-12:00 Physics") (str "2024-05-01") =
  Ok [ {| title := str "Algebra 11:00-12:00 Physics";
          time := str "09:00-10:00";
          s_iso := str "2024-05-01T09:00:00";
          e_iso := str "2024-05-01T10:00:00" |} ].
Proof. vm_compute. reflexivity. Qed.

(** ** C4

    A line with no time range makes the loop append nothing: the search
    fails, the list is left as it was, and the outcome is the outcome for
    the text without that line.  The candidates are those of the matching
    lines, line by line. *)
Theorem line_without_time_range_is_skipped :
  forall date_str line,
    ~ has_time_range line ->
    re_search pattern line = None /\
    (forall events, loop_body date_str events line = Ok events) /\
    (forall before after events,
        for_lines date_str (before ++ line :: after) events =
        for_lines date_str (before ++ after) events) /\
    (forall lines,
        for_lines date_str lines [] =
        Ok (flat_map (line_events date_str) (filter matchesb lines))).
Proof.
  intros date_str line Hno.
  assert (E : re_search pattern line = None).
  { destruct (re_search pattern line) eqn:E; [|reflexivity].
    exfalso. apply Hno, matches_iff_time_range. unfold matches. congruence. }
  assert (El : line_events date_str line = []).
  { unfold line_events, event_of_line. now rewrite E. }
  repeat split.
  - exact E.
  - intros events. unfold loop_body. now rewrite E.
  - intros before after events. rewrite !for_lines_flat_map, !flat_map_app.
    cbn [flat_map]. now rewrite El.
  - intros lines. rewrite for_lines_flat_map. cbn [app]. f_equal.
    induction lines as [|l ls IH]; [reflexivity|].
    cbn [flat_map filter]. unfold matchesb at 1.
    destruct (re_search pattern l) as [[p g]|] eqn:El'.
    + cbn [flat_map]. now rewrite IH.
    + unfold line_events at 1, event_of_line. now rewrite El'.
Qed.

Lemma line_without_time_range_is_skipped_witness :
  ~ has_time_range (str "Lunch Break") /\
  re_search pattern (str "Lunch Break") = None /\
  scan_text (str "Lunch Break") (str "2024-05-01") = Ok [].
Proof.
  assert (Hno : ~ has_time_range (str "Lunch Break"))
    by (apply not_matches_check; reflexivity).
  pose proof (line_without_time_range_is_skipped (str "2024-05-01")
                (str "Lunch Break") Hno) as (E & Hbody & _ & _).
  split; [exact Hno|]. split; [exact E|].
  exact (Hbody []).
Defined.

(** ** Matching lines by position *)

Lemma matchesb_matches line : matchesb line = true <-> matches line.
Proof.
  unfold matchesb, matches. destruct (re_search pattern line); split;
    intros H; try reflexivity; try discriminate; congruence.
Qed.

Lemma matching_indices_in base lines i :
  In i (matching_indices base lines) <->
  (base <= i < base + List.length lines)%nat /\
  matchesb (nth (i - base) lines []) = true.
Proof.
  revert base. induction lines as [|l ls IH]; intros base; cbn [matching_indices].
  - cbn. split; [tauto | intros [H _]; lia].
  - assert (Hnth : forall j, (S base <= j)%nat ->
                nth (j - base) (l :: ls) [] = nth (j - S base) ls []).
    { intros j Hj. replace (j - base)%nat with (S (j - S base)) by lia. reflexivity. }
    destruct (matchesb l) eqn:El.
    + cbn [In]. rewrite IH. cbn [List.length]. split.
      * intros [<-|[Hb Hm]].
        -- split; [lia|]. now rewrite Nat.sub_diag.
        -- split; [lia|]. now rewrite Hnth by lia.
      * intros [Hb Hm]. destruct (Nat.eq_dec base i) as [->|Hne]; [now left|].
        right. split; [lia|]. now rewrite <- Hnth by lia.
    + rewrite IH. cbn [List.length]. split.
      * intros [Hb Hm]. split; [lia|]. now rewrite Hnth by lia.
      * intros [Hb Hm]. destruct (Nat.eq_dec base i) as [->|Hne].
        -- rewrite Nat.sub_diag in Hm. cbn in Hm. congruence.
        -- split; [lia|]. now rewrite <- Hnth by lia.
Qed.

Lemma matching_indices_sorted base lines :
  StronglySorted lt (matching_indices base lines).
Proof.
  revert base. induction lines as [|l ls IH]; intros base; cbn [matching_indices].
  - constructor.
  - destruct (matchesb l); [|apply IH].
    constructor; [apply IH|].
    apply Forall_forall. intros i Hi. apply matching_indices_in in Hi. lia.
Qed.

Lemma events_by_index date_str base lines :
  Forall2 (fun i ev =>
             (base <= i)%nat /\
             event_of_line date_str (nth (i - base) lines []) = Some ev)
          (matching_indices base lines)
          (flat_map (line_events date_str) lines).
Proof.
  revert base. induction lines as [|l ls IH]; intros base;
    cbn [matching_indices flat_map].
  - constructor.
  - assert (Hshift : Forall2
              (fun i ev =>
                 (base <= i)%nat /\
                 event_of_line date_str (nth (i - base) (l :: ls) []) = Some ev)
              (matching_indices (S base) ls)
              (flat_map (line_events date_str) ls)).
    { eapply Forall2_impl; [|exact (IH (S base))]. cbn beta.
      intros i ev [Hle Hev]. split; [lia|].
      replace (i - base)%nat with (S (i - S base)) by lia. exact Hev. }
    destruct (re_search pattern l) as [[p g]|] eqn:E.
    + destruct (re_search_pattern_groups _ _ _ E) as (s & e & rest & -> & _).
      assert (Em : matchesb l = true) by (unfold matchesb; now rewrite E).
      assert (Ev : event_of_line date_str l =
                   Some (candidate date_str s e
                           (takewhile not_newline (dropwhile isspace rest))))
        by (unfold event_of_line; now rewrite E).
      rewrite Em. unfold line_events at 1. rewrite Ev.
      cbn [app]. constructor; [|exact Hshift].
      split; [lia|].
      rewrite Nat.sub_diag. cbn [nth]. exact Ev.
    + assert (Em : matchesb l = false) by (unfold matchesb; now rewrite E).
      assert (Ev : line_events date_str l = [])
        by (unfold line_events, event_of_line; now rewrite E).
      rewrite Em, Ev. exact Hshift.
Qed.

(** ** C5

    Whatever the document and the date, when the text has been extracted
    the candidates correspond one to one, in order, to the positions of
    the matching lines taken in increasing order: nothing is reordered
    and a line that occurs twice gives its candidate twice. *)
Theorem extraction_keeps_line_order :
  forall L file_bytes filename date_str text,
    extract_text L file_bytes filename = Ok text ->
    exists idx events,
      parse_content L file_bytes filename date_str = Ok events /\
      StronglySorted lt idx /\
      (forall i, In i idx <->
                 (i < List.length (split NL text))%nat /\
                 matches (nth i (split NL text) [])) /\
      Forall2 (fun i ev =>
                 event_of_line date_str (nth i (split NL text) []) = Some ev)
              idx events.
Proof.
  intros L file_bytes filename date_str text Htext.
  exists (matching_indices 0 (split NL text)),
         (flat_map (line_events date_str) (split NL text)).
  split; [|split; [|split]].
  - unfold parse_content. rewrite Htext. cbn [bind]. unfold scan_text.
    now rewrite for_lines_flat_map.
  - apply matching_indices_sorted.
  - intros i. rewrite matching_indices_in, Nat.sub_0_r, matchesb_matches.
    cbn [Nat.add]. split; intros [H1 H2]; (split; [lia | exact H2]).
  - pose proof (events_by_index date_str 0 (split NL text)) as H.
    eapply Forall2_impl; [|exact H]. cbn beta. intros i ev [_ Hi].
    now rewrite Nat.sub_0_r in Hi.
Qed.

Lemma extraction_keeps_line_order_witness :
  extract_text latin1_extractors demo_file (str "plan.html") = Ok demo_text /\
  exists idx events,
    parse_content latin1_extractors demo_file (str "plan.html") (str "2024-05-01")
    = Ok events /\
    StronglySorted lt idx /\
    (forall i, In i idx <->
               (i < List.length (split NL demo_text))%nat /\
               matches (nth i (split NL demo_text) [])) /\
    Forall2 (fun i ev =>
               event_of_line (str "2024-05-01") (nth i (split NL demo_text) [])
               = Some ev)
            idx events.
Proof.
  assert (H : extract_text latin1_extractors demo_file (str "plan.html")
              = Ok demo_text) by (vm_compute; reflexivity).
  split; [exact H|].
  exact (extraction_keeps_line_order latin1_extractors demo_file
           (str "plan.html") (str "2024-05-01") demo_text H).
Defined.

(** On the small schedule: the later time comes first because its line
    does, and the repeated line gives its candidate twice. *)
Example demo_schedule_order :
  parse_content latin1_extractors demo_file (str "plan.html") (str "2024-05-01") =
  Ok [ {| title := str "Biology"; time := str "10:00-11:00";
          s_iso := str "2024-05-01T10:00:00"; e_iso := str "2024-05-01T11:00:00" |};
       {| title := str "Assembly"; time := str "09:00-09:30";
          s_iso := str "2024-05-01T09:00:00"; e_iso := str "2024-05-01T09:30:00" |};
       {| title := str "Biology"; time := str "10:00-11:00";
          s_iso := str "2024-05-01T10:00:00"; e_iso := str "2024-05-01T11:00:00" |} ].
Proof. vm_compute. reflexivity. Qed.

(** ** C6

    As stated the claim fails: [text] stays empty, and the empty string
    split at newlines is the list holding one empty line, not the empty
    list. *)
Lemma unsupported_extension_has_one_empty_line :
  ~ (exists text,
        extract_text latin1_extractors (ascii_bytes "09:00-10:00 Talk")
                     (str "notes.txt") = Ok text /\
        split NL text = []).
Proof.
  intros (text & _ & H). now apply (split_not_empty NL text).
Qed.

(** C6, amended: when the file name ends in neither [.pdf] nor [.html],
    whatever the bytes and the libraries, the text is empty, its line
    sequence is the single empty line, and [parse_content] returns the
    empty list as a value. *)
Theorem unsupported_extension_gives_no_events :
  forall L file_bytes filename date_str,
    endswith filename (str ".pdf") = false ->
    endswith filename (str ".html") = false ->
    extract_text L file_bytes filename = Ok [] /\
    split NL [] = [[]] /\
    parse_content L file_bytes filename date_str = Ok [].
Proof.
  intros L file_bytes filename date_str Hpdf Hhtml.
  assert (E : extract_text L file_bytes filename = Ok []).
  { unfold extract_text. now rewrite Hpdf, Hhtml. }
  split; [exact E|]. split; [reflexivity|].
  unfold parse_content. rewrite E. reflexivity.
Qed.

Lemma unsupported_extension_gives_no_events_witness :
  endswith (str "notes.txt") (str ".pdf") = false /\
  endswith (str "notes.txt") (str ".html") = false /\
  extract_text latin1_extractors (ascii_bytes "09:00-10:00 Talk") (str "notes.txt")
  = Ok [] /\
  split NL [] = [[]] /\
  parse_content latin1_extractors (ascii_bytes "09:00-10:00 Talk")
                (str "notes.txt") (str "2024-05-01") = Ok [].
Proof.
  split; [reflexivity|]. split; [reflexivity|].
  exact (unsupported_extension_gives_no_events latin1_extractors
           (ascii_bytes "09:00-10:00 Talk") (str "notes.txt") (str "2024-05-01")
           eq_refl eq_refl).
Defined.

(** ** Clock values *)

Lemma colon_time_digits l : Forall is_digit l -> colon_time l = l.
Proof.
  induction 1 as [|c l Hc _ IH]; [reflexivity|].
  unfold colon_time in *. cbn [map]. rewrite IH.
  destruct (c =? PERIOD) eqn:E; [|reflexivity].
  apply N.eqb_eq in E. subst c. discriminate Hc.
Qed.

Lemma takewhile_app_stop p l c r :
  Forall (fun x => p x = true) l -> p c = false ->
  takewhile p (l ++ c :: r) = l /\ dropwhile p (l ++ c :: r) = c :: r.
Proof.
  intros Hl Hc. induction Hl as [|x l Hx _ [IH1 IH2]]; cbn.
  - now rewrite Hc.
  - now rewrite Hx, IH1, IH2.
Qed.

Lemma digits_not_sep l : Forall is_digit l -> Forall (fun x => not_sep x = true) l.
Proof.
  intros H. eapply Forall_impl; [|exact H]. cbn beta. intros c Hc.
  unfold not_sep. now rewrite (digit_not_sep c Hc).
Qed.

Lemma clock_minutes_colon_time tok :
  time_token tok -> clock_minutes (colon_time tok) = clock_minutes tok.
Proof.
  intros (h & c & m & -> & _ & Dh & Hc & _ & Dm).
  assert (E : colon_time (h ++ c :: m) = h ++ COLON :: m).
  { unfold colon_time. rewrite map_app. cbn [map].
    change (colon_time h ++ (if c =? PERIOD then COLON else c) :: colon_time m
            = h ++ COLON :: m).
    rewrite (colon_time_digits h Dh), (colon_time_digits m Dm).
    destruct (sep_cases c Hc) as [-> | ->]; reflexivity. }
  rewrite E. unfold clock_minutes.
  destruct (takewhile_app_stop not_sep h c m (digits_not_sep h Dh)) as [-> ->].
  { unfold not_sep. now rewrite Hc. }
  destruct (takewhile_app_stop not_sep h COLON m (digits_not_sep h Dh)) as [-> ->].
  { reflexivity. }
  reflexivity.
Qed.

(** ** C9

    For every line the pattern is found in, the start and the end of the
    candidate carry the one date the caller gave: [s_iso] and [e_iso] are
    that date, [T], the clock token and [:00], with the clock value of the
    token unchanged.  No comparison of the two clock values takes place,
    so an end that is earlier than the start stays on the same date, and
    the candidate is appended all the same. *)
Theorem end_stays_on_the_reference_date :
  forall date_str line pos g,
    re_search pattern line = Some (pos, g) ->
    exists s e t,
      g = [s; e; t] /\ time_token s /\ time_token e /\
      (forall events,
          loop_body date_str events line = Ok (events ++ [candidate date_str s e t])) /\
      s_iso (candidate date_str s e t)
      = date_str ++ [LETTER_T] ++ colon_time s ++ str ":00" /\
      e_iso (candidate date_str s e t)
      = date_str ++ [LETTER_T] ++ colon_time e ++ str ":00" /\
      clock_minutes (colon_time s) = clock_minutes s /\
      clock_minutes (colon_time e) = clock_minutes e.
Proof.
  intros date_str line pos g H.
  destruct (re_search_pattern_groups _ _ _ H) as (s & e & rest & -> & Hr & _).
  destruct Hr as (pre & u & _ & _ & (ws1 & d & ws2 & _ & Hs & He & _)).
  exists s, e, (takewhile not_newline (dropwhile isspace rest)).
  split; [reflexivity|]. split; [exact Hs|]. split; [exact He|].
  split; [|split; [|split; [|split]]].
  - intros events. unfold loop_body. now rewrite H.
  - cbn [s_iso candidate]. now rewrite replace_period.
  - cbn [e_iso candidate]. now rewrite replace_period.
  - now apply clock_minutes_colon_time.
  - now apply clock_minutes_colon_time.
Qed.

Lemma end_stays_on_the_reference_date_witness :
  re_search pattern (str "23:00-01:00 Party")
  = Some (0%nat, [str "23:00"; str "01:00"; str "Party"]) /\
  exists s e t,
    [str "23:00"; str "01:00"; str "Party"] = [s; e; t] /\
    time_token s /\ time_token e /\
    (forall events,
        loop_body (str "2024-05-01") events (str "23:00-01:00 Party")
        = Ok (events ++ [candidate (str "2024-05-01") s e t])) /\
    s_iso (candidate (str "2024-05-01") s e t)
    = str "2024-05-01" ++ [LETTER_T] ++ colon_time s ++ str ":00" /\
    e_iso (candidate (str "2024-05-01") s e t)
    = str "2024-05-01" ++ [LETTER_T] ++ colon_time e ++ str ":00" /\
    clock_minutes (colon_time s) = clock_minutes s /\
    clock_minutes (colon_time e) = clock_minutes e.
Proof.
  assert (H : re_search pattern (str "23:00-01:00 Party")
              = Some (0%nat, [str "23:00"; str "01:00"; str "Party"]))
    by (vm_compute; reflexivity).
  split; [exact H|].
  exact (end_stays_on_the_reference_date (str "2024-05-01")
           (str "23:00-01:00 Party") 0%nat _ H).
Defined.

(** The line of the claim: the end is at 01:00 of the same date, sixty
    minutes after midnight against 1380 for the start, and the end string
    sorts before the start string. *)
Example party_line :
  scan_text (str "23:00-01:00 Party") (str "2024-05-01") =
  Ok [ {| title := str "Party"; time := str "23:00-01:00";
          s_iso := str "2024-05-01T23:00:00";
          e_iso := str "2024-05-01T01:00:00" |} ] /\
  clock_minutes (str "01:00") = 60 /\
  clock_minutes (str "23:00") = 1380 /\
  str_ltb (str "2024-05-01T01:00:00") (str "2024-05-01T23:00:00") = true.
Proof. vm_compute. repeat split; reflexivity. Qed.

(** ** C10

    The line [27:99-28.77 Impossible] yields a candidate for every date:
    the tokens are kept as they are, although no clock shows an hour 27 or
    28, or a minute 99 or 77. *)
Theorem out_of_range_clock_is_accepted :
  forall date_str,
    scan_text (str "27:99-28.77 Impossible") date_str =
    Ok [ {| title := str "Impossible";
            time := str "27:99-28.77";
            s_iso := date_str ++ str "T27:99:00";
            e_iso := date_str ++ str "T28:77:00" |} ] /\
    clock_in_range (str "27:99") = false /\
    clock_in_range (str "28.77") = false /\
    clock_in_range (str "28:77") = false.
Proof.
  intros date_str. split; [|repeat split; reflexivity].
  rewrite scan_text_line by (apply no_newline_check; reflexivity).
  unfold line_events, event_of_line.
  replace (re_search pattern (str "27:99-28.77 Impossible"))
    with (Some (0%nat, [str "27:99"; str "28.77"; str "Impossible"]))
    by (vm_compute; reflexivity).
  unfold candidate. rewrite !replace_period. reflexivity.
Qed.

(** ** The export *)

Lemma replace_delete_gone s o : existsb (N.eqb o) (replace s [o] []) = false.
Proof.
  rewrite replace_delete_char.
  induction s as [|c s IH]; cbn [filter]; [reflexivity|].
  destruct (c =? o) eqn:E; cbn [negb]; [exact IH|].
  cbn [existsb]. rewrite IH, N.eqb_sym, E. reflexivity.
Qed.

(** ** C2 (a defect of the code)

    The claim asks for every title to be in the file verbatim.  The code
    removes every Z from the serialised text, not only the Z that ends a
    timestamp: whatever the library renders, a successful export contains
    no Z at all, so a title with a Z in it loses it.  With the stand-in
    library, the title [Zoom call] is written as [oom call]. *)
Theorem export_removes_Z_from_titles :
  (forall C titles starts ends selected,
      match export_ics C titles starts ends selected with
      | Ok out => existsb (N.eqb LETTER_Z) out = false
      | Raise _ => True
      end) /\
  export_ics plain_calendar
             [str "Zoom call"]
             [str "2024-05-01T09:00:00"] [str "2024-05-01T10:00:00"]
             [0%Z]
  = Ok (join CRLF [ str "BEGIN:VCALENDAR"; str "VERSION:2.0";
                    str "PRODID:ics.py - http://git.io/lLljaA";
                    str "BEGIN:VEVENT";
                    str "DTEND:20240501T100000";
                    str "DTSTART:20240501T090000";
                    str "SUMMARY:oom call";
                    str "END:VEVENT";
                    str "END:VCALENDAR" ]).
Proof.
  split.
  - intros C titles starts ends selected. unfold export_ics.
    destruct (export_loop C titles starts ends selected ([], [])) as [st|e];
      cbn [bind]; [|exact I].
    apply replace_delete_gone.
  - vm_compute. reflexivity.
Qed.

(** Two selected events give two event blocks, and the timestamps end
    without a Z. *)
Example two_selected_events :
  export_ics plain_calendar
             [str "Math Lecture"; str "Lunch"; str "Lab Session"]
             [str "2024-05-01T09:00:00"; str "2024-05-01T12:00:00";
              str "2024-05-01T14:00:00"]
             [str "2024-05-01T10:30:00"; str "2024-05-01T13:00:00";
              str "2024-05-01T15:00:00"]
             [0%Z; 2%Z]
  = Ok (join CRLF [ str "BEGIN:VCALENDAR"; str "VERSION:2.0";
                    str "PRODID:ics.py - http://git.io/lLljaA";
                    str "BEGIN:VEVENT";
                    str "DTEND:20240501T103000";
                    str "DTSTART:20240501T090000";
                    str "SUMMARY:Math Lecture";
                    str "END:VEVENT";
                    str "BEGIN:VEVENT";
                    str "DTEND:20240501T150000";
                    str "DTSTART:20240501T140000";
                    str "SUMMARY:Lab Session";
                    str "END:VEVENT";
                    str "END:VCALENDAR" ]).
Proof. vm_compute. reflexivity. Qed.

(** ** The empty calendar *)

Lemma filter_join (f : char -> bool) sep parts :
  filter f (join sep parts) = join (filter f sep) (map (filter f) parts).
Proof.
  induction parts as [|p [|q ps] IH]; [reflexivity | reflexivity |].
  change (join sep (p :: q :: ps)) with (p ++ sep ++ join sep (q :: ps)).
  rewrite !filter_app, IH. reflexivity.
Qed.

Lemma takewhile_filter (p f : char -> bool) l :
  (forall c, f c = false -> p c = true) ->
  takewhile p (filter f l) = filter f (takewhile p l).
Proof.
  intros H. induction l as [|c l IH]; [reflexivity|].
  cbn [filter takewhile]. destruct (f c) eqn:Ef.
  - cbn [takewhile]. destruct (p c); cbn [filter]; [|reflexivity].
    now rewrite Ef, IH.
  - rewrite (H c Ef). cbn [filter]. now rewrite Ef.
Qed.

Lemma property_line_without_Z l :
  property_line l -> ~ In LETTER_Z (property_name l) ->
  property_line (filter (fun c => negb (c =? LETTER_Z)) l).
Proof.
  intros (Hc & Hn & Hb & He & Hcr & Hlf) Hz.
  assert (En : property_name (filter (fun c => negb (c =? LETTER_Z)) l)
               = property_name l).
  { unfold property_name. rewrite takewhile_filter.
    - apply filter_keeps_all. intros x Hx.
      apply negb_true_iff, N.eqb_neq. intros ->. now apply Hz.
    - intros c Hf. apply negb_false_iff, N.eqb_eq in Hf. now subst c. }
  unfold property_line. rewrite En. repeat split; try assumption.
  - apply filter_In. split; [exact Hc | reflexivity].
  - intros Hin. apply filter_In in Hin. tauto.
  - intros Hin. apply filter_In in Hin. tauto.
Qed.

Lemma calendar_frame_without_Z props :
  filter (fun c => negb (c =? LETTER_Z)) (calendar_frame props) =
  calendar_frame (map (filter (fun c => negb (c =? LETTER_Z))) props).
Proof.
  unfold calendar_frame. rewrite filter_join. cbn [map].
  rewrite map_app. reflexivity.
Qed.

(** ** C7

    With nothing selected the loop does not run: no index is read, no
    timestamp is parsed, nothing can raise, and the route of a logged-in
    user answers with the file and records an operation with no events.
    The text written is what the library renders for the calendar without
    events, less its Z's.  When the library renders that calendar as the
    frame of a calendar file with property lines only, the names of which
    have no Z, the text written is such a frame too: an empty calendar
    document. *)
Theorem empty_selection_exports_empty_calendar :
  forall C titles starts ends,
    renders_empty_calendar C ->
    exists out,
      export_ics C titles starts ends [] = Ok out /\
      empty_calendar_document out /\
      (~ In LETTER_Z (serialize C []) -> out = serialize C []) /\
      forall uid schedule_name w,
        export C (Some (Z.pos uid)) titles starts ends [] schedule_name w =
        Ok (FileResponse (str "export_" ++ str_of_int (Z.pos uid) ++ str ".ics")
                         (schedule_name ++ str ".ics"),
            {| history := history w ++ [mk_operation schedule_name [] (Z.pos uid)];
               files := (str "export_" ++ str_of_int (Z.pos uid) ++ str ".ics", out)
                        :: files w |}).
Proof.
  intros C titles starts ends (props & Hs & Hp & Hz).
  exists (filter (fun c => negb (c =? LETTER_Z)) (serialize C [])).
  assert (E : ics_fixed C [] = filter (fun c => negb (c =? LETTER_Z)) (serialize C []))
    by apply replace_delete_char.
  split; [|split; [|split]].
  - unfold export_ics. cbn [export_loop bind fst]. now rewrite E.
  - rewrite Hs, calendar_frame_without_Z.
    exists (map (filter (fun c => negb (c =? LETTER_Z))) props).
    split; [reflexivity|].
    apply Forall_map. rewrite Forall_forall in Hp, Hz. apply Forall_forall.
    intros l Hl. now apply property_line_without_Z; [apply Hp | apply Hz].
  - intros Hno. apply filter_keeps_all. intros x Hx.
    apply negb_true_iff, N.eqb_neq. intros ->. now apply Hno.
  - intros uid schedule_name w. unfold export. cbn [truthy_id export_loop bind fst snd].
    fold (ics_fixed C []). now rewrite E.
Qed.

Lemma plain_calendar_renders_empty_calendar : renders_empty_calendar plain_calendar.
Proof.
  exists [str "VERSION:2.0"; str "PRODID:ics.py - http://git.io/lLljaA"].
  split; [reflexivity|].
  assert (P : forall l,
             existsb (N.eqb COLON) l = true ->
             negb (str_eqb (property_name l) []) = true ->
             negb (str_eqb (property_name l) (str "BEGIN")) = true ->
             negb (str_eqb (property_name l) (str "END")) = true ->
             forallb (fun c => negb ((c =? 13) || (c =? 10))) l = true ->
             property_line l).
  { intros l H1 H2 H3 H4 H5. unfold property_line.
    apply existsb_exists in H1 as (c & Hc & Ec). apply N.eqb_eq in Ec. subst c.
    apply negb_true_iff in H2, H3, H4. rewrite forallb_forall in H5.
    repeat split; try assumption.
    - intros E. apply str_eqb_eq in E. congruence.
    - intros E. apply str_eqb_eq in E. congruence.
    - intros E. apply str_eqb_eq in E. congruence.
    - intros Hin. specialize (H5 _ Hin). discriminate.
    - intros Hin. specialize (H5 _ Hin). discriminate. }
  split.
  - repeat constructor; apply P; reflexivity.
  - repeat constructor; intros Hin;
      match type of Hin with In _ ?l =>
        apply (proj1 (forallb_forall (fun c => negb (c =? LETTER_Z)) l) eq_refl) in Hin
      end; discriminate.
Qed.

Lemma empty_selection_exports_empty_calendar_witness :
  renders_empty_calendar plain_calendar /\
  exists out,
    export_ics plain_calendar [str "Math Lecture"] [str "2024-05-01T09:00:00"]
               [str "2024-05-01T10:30:00"] [] = Ok out /\
    empty_calendar_document out /\
    (~ In LETTER_Z (serialize plain_calendar []) -> out = serialize plain_calendar []) /\
    forall uid schedule_name w,
      export plain_calendar (Some (Z.pos uid)) [str "Math Lecture"]
             [str "2024-05-01T09:00:00"] [str "2024-05-01T10:30:00"] []
             schedule_name w =
      Ok (FileResponse (str "export_" ++ str_of_int (Z.pos uid) ++ str ".ics")
                       (schedule_name ++ str ".ics"),
          {| history := history w ++ [mk_operation schedule_name [] (Z.pos uid)];
             files := (str "export_" ++ str_of_int (Z.pos uid) ++ str ".ics", out)
                      :: files w |}).
Proof.
  split; [exact plain_calendar_renders_empty_calendar|].
  exact (empty_selection_exports_empty_calendar plain_calendar
           [str "Math Lecture"] [str "2024-05-01T09:00:00"]
           [str "2024-05-01T10:30:00"] plain_calendar_renders_empty_calendar).
Defined.

(** With the stand-in library the empty calendar is the frame of an
    iCalendar file. *)
Example empty_selection_file :
  export plain_calendar (Some 7%Z) [str "Math Lecture"]
         [str "2024-05-01T09:00:00"] [str "2024-05-01T10:30:00"] []
         (str "Week 18") {| history := []; files := [] |}
  = Ok (FileResponse (str "export_7.ics") (str "Week 18.ics"),
        {| history := [mk_operation (str "Week 18") [] 7%Z];
           files := [(str "export_7.ics",
                      join CRLF [ str "BEGIN:VCALENDAR"; str "VERSION:2.0";
                                  str "PRODID:ics.py - http://git.io/lLljaA";
                                  str "END:VCALENDAR" ])] |}).
Proof. vm_compute. reflexivity. Qed.

(** * Further properties of the routes *)

(** ** Pages and lines *)

Lemma split_app_sep sep a b :
  split sep (a ++ sep :: b) = split sep a ++ split sep b.
Proof.
  induction a as [|c a IH]; cbn [app split].
  - now rewrite N.eqb_refl.
  - rewrite IH. destruct (c =? sep); [reflexivity|].
    destruct (split sep a) as [|l ls] eqn:E; [|reflexivity].
    now apply split_not_empty in E.
Qed.


Lemma scan_text_events text date_str :
  scan_text text date_str = Ok (text_events date_str text).
Proof. unfold scan_text, text_events. now rewrite for_lines_flat_map. Qed.




(** ** The shape of a candidate *)

Lemma in_dropwhile p s c : In c (dropwhile p s) -> In c s.
Proof.
  intros H. destruct (dropwhile_suffix p s) as [pre E]. rewrite E.
  apply in_or_app. now right.
Qed.

Lemma in_strip s c : In c (strip s) -> In c s.
Proof.
  unfold strip, rstrip, lstrip. intros H.
  apply in_rev, in_dropwhile, in_rev in H. now apply in_dropwhile in H.
Qed.

Lemma rstrip_prefix x : exists tail, x = rstrip x ++ tail.
Proof.
  exists (rev (takewhile isspace (rev x))). unfold rstrip.
  rewrite <- rev_app_distr, takewhile_dropwhile. now rewrite rev_involutive.
Qed.

Lemma rstrip_idem x : rstrip (rstrip x) = rstrip x.
Proof. unfold rstrip. now rewrite rev_involutive, dropwhile_idem. Qed.

Lemma lstrip_rstrip_fixed x : lstrip x = x -> lstrip (rstrip x) = rstrip x.
Proof.
  intros Hx. destruct (rstrip x) as [|c r] eqn:E; [reflexivity|].
  destruct (rstrip_prefix x) as [tail Ex]. rewrite E in Ex.
  unfold lstrip in *. rewrite Ex in Hx. cbn [app] in Hx.
  apply dropwhile_head in Hx. now apply dropwhile_stop.
Qed.

Lemma strip_idem s : strip (strip s) = strip s.
Proof.
  unfold strip.
  rewrite (lstrip_rstrip_fixed (lstrip s)) by apply dropwhile_idem.
  apply rstrip_idem.
Qed.

Lemma line_event_shape date_str line ev :
  In ev (line_events date_str line) ->
  exists s e,
    time_token s /\ time_token e /\
    time ev = s ++ [HYPHEN] ++ e /\
    s_iso ev = date_str ++ [LETTER_T] ++ colon_time s ++ str ":00" /\
    e_iso ev = date_str ++ [LETTER_T] ++ colon_time e ++ str ":00" /\
    strip (title ev) = title ev /\
    no_newline (title ev).
Proof.
  unfold line_events, event_of_line.
  destruct (re_search pattern line) as [[pos g]|] eqn:E; [|intros []].
  destruct (re_search_pattern_groups _ _ _ E) as (s & e & rest & -> & Hr & _).
  destruct Hr as (pre & u & _ & _ & (ws1 & d & ws2 & _ & Hs & He & _)).
  intros [<-|[]]. exists s, e. cbn [time s_iso e_iso title candidate].
  rewrite !replace_period. repeat split; try assumption; try reflexivity.
  - apply strip_idem.
  - intros Hin. apply in_strip in Hin.
    pose proof (takewhile_Forall not_newline (dropwhile isspace rest)) as Hall.
    rewrite Forall_forall in Hall. specialize (Hall NL Hin). discriminate.
Qed.

(** Whatever the document, every candidate [parse_content] returns has
    the same shape: its [time] is two time tokens joined by a hyphen, its
    [s_iso] and [e_iso] are the date, [T], the token with a colon and
    [:00], and its title is already stripped and has no newline. *)
Theorem parsed_events_have_one_shape :
  forall L file_bytes filename date_str events ev,
    parse_content L file_bytes filename date_str = Ok events ->
    In ev events ->
    exists s e,
      time_token s /\ time_token e /\
      time ev = s ++ [HYPHEN] ++ e /\
      s_iso ev = date_str ++ [LETTER_T] ++ colon_time s ++ str ":00" /\
      e_iso ev = date_str ++ [LETTER_T] ++ colon_time e ++ str ":00" /\
      strip (title ev) = title ev /\
      no_newline (title ev).
Proof.
  intros L file_bytes filename date_str events ev H Hin.
  unfold parse_content in H.
  destruct (extract_text L file_bytes filename) as [text|x]; [|discriminate].
  cbn [bind] in H. rewrite scan_text_events in H. injection H as <-.
  unfold text_events in Hin. apply in_flat_map in Hin as (line & _ & Hin).
  now apply (line_event_shape date_str line).
Qed.

Lemma parsed_events_have_one_shape_witness :
  let ev := candidate (str "2024-05-01") (str "09:00") (str "09:30") (str "Assembly") in
  parse_content latin1_extractors demo_file (str "plan.html") (str "2024-05-01") =
  Ok [ candidate (str "2024-05-01") (str "10:00") (str "11:00") (str "Biology");
       ev;
       candidate (str "2024-05-01") (str "10:00") (str "11:00") (str "Biology") ] /\
  exists s e,
    time_token s /\ time_token e /\
    time ev = s ++ [HYPHEN] ++ e /\
    s_iso ev = str "2024-05-01" ++ [LETTER_T] ++ colon_time s ++ str ":00" /\
    e_iso ev = str "2024-05-01" ++ [LETTER_T] ++ colon_time e ++ str ":00" /\
    strip (title ev) = title ev /\
    no_newline (title ev).
Proof.
  intros ev.
  assert (H : parse_content latin1_extractors demo_file (str "plan.html")
                (str "2024-05-01") =
              Ok [ candidate (str "2024-05-01") (str "10:00") (str "11:00") (str "Biology");
                   ev;
                   candidate (str "2024-05-01") (str "10:00") (str "11:00") (str "Biology") ])
    by (vm_compute; reflexivity).
  split; [exact H|].
  exact (parsed_events_have_one_shape latin1_extractors demo_file (str "plan.html")
           (str "2024-05-01") _ ev H (or_intror (or_introl eq_refl))).
Defined.

(** ** What [upload] answers *)

Lemma line_events_nil_iff date_str line :
  line_events date_str line = [] <-> ~ has_time_range line.
Proof.
  rewrite <- matches_iff_time_range. unfold line_events, event_of_line, matches.
  destruct (re_search pattern line) as [[pos g]|] eqn:E.
  - destruct (re_search_pattern_groups _ _ _ E) as (s & e & rest & -> & _).
    split; [discriminate | intros H; exfalso; apply H; discriminate].
  - split; [intros _ H; now apply H | reflexivity].
Qed.

Lemma text_events_nil_iff date_str text :
  text_events date_str text = [] <-> ~ Exists has_time_range (split NL text).
Proof.
  unfold text_events. induction (split NL text) as [|l ls IH]; cbn [flat_map].
  - split; [intros _ H; inversion H | reflexivity].
  - split.
    + intros H. apply app_eq_nil in H as [Hl Hls].
      intros Hex. inversion Hex; subst.
      * now apply (line_events_nil_iff date_str l).
      * now apply IH.
    + intros H.
      assert (Hl : line_events date_str l = []).
      { apply line_events_nil_iff. intros Hr. apply H. now left. }
      rewrite Hl. apply IH. intros Hex. apply H. now right.
Qed.

(** [upload] has three answers and the text decides between them: when
    extraction raises, the redirect with the parsing error and the text of
    the exception; when the text is extracted and some line has a time
    range, the page with the candidates, which are not empty; when no
    line has one, the redirect saying that no events were found.  The
    user logged in plays no part. *)
Theorem upload_answers :
  forall L describe users session_user file_bytes filename event_date,
    (forall e,
        extract_text L file_bytes filename = Raise e ->
        upload L describe users session_user file_bytes filename event_date =
        Redirect (str "/?error=" ++ parse_error ++ describe e)) /\
    (forall text,
        extract_text L file_bytes filename = Ok text ->
        Exists has_time_range (split NL text) ->
        text_events event_date text <> [] /\
        upload L describe users session_user file_bytes filename event_date =
        IndexPage (current_user users session_user)
                  (Some (text_events event_date text)) event_date None) /\
    (forall text,
        extract_text L file_bytes filename = Ok text ->
        ~ Exists has_time_range (split NL text) ->
        upload L describe users session_user file_bytes filename event_date =
        Redirect (str "/?error=" ++ no_events_found)).
Proof.
  intros L describe users session_user file_bytes filename event_date.
  unfold upload, parse_content. split; [|split].
  - intros e ->. reflexivity.
  - intros text -> Hex. cbn [bind]. rewrite scan_text_events.
    assert (Hne : text_events event_date text <> []).
    { intros E. now apply text_events_nil_iff in E. }
    split; [exact Hne|].
    destruct (text_events event_date text); [congruence | reflexivity].
  - intros text -> Hno. cbn [bind]. rewrite scan_text_events.
    apply (text_events_nil_iff event_date) in Hno. now rewrite Hno.
Qed.

Lemma upload_answers_witness :
  extract_text latin1_extractors demo_file (str "plan.html") = Ok demo_text /\
  Exists has_time_range (split NL demo_text) /\
  text_events (str "2024-05-01") demo_text <> [] /\
  upload latin1_extractors (fun _ => []) [] None demo_file (str "plan.html")
         (str "2024-05-01") =
  IndexPage None (Some (text_events (str "2024-05-01") demo_text))
            (str "2024-05-01") None.
Proof.
  assert (H : extract_text latin1_extractors demo_file (str "plan.html")
              = Ok demo_text) by (vm_compute; reflexivity).
  assert (Hex : Exists has_time_range (split NL demo_text)).
  { apply Exists_cons_hd.
    exists 0%nat, (str "10:00"), (str "11:00"), (str " Biology").
    exists [], (str "10:00-11:00"). repeat split.
    apply time_range_check. reflexivity. }
  split; [exact H|]. split; [exact Hex|].
  exact (proj1 (proj2 (upload_answers latin1_extractors (fun _ => []) [] None
                         demo_file (str "plan.html") (str "2024-05-01")))
           demo_text H Hex).
Defined.

(** ** File names *)

Lemma startswith_both s p q :
  startswith s p = true -> startswith s q = true ->
  (List.length q <= List.length p)%nat -> startswith p q = true.
Proof.
  revert p q. induction s as [|x s IH]; intros p q Hp Hq Hlen.
  - destruct q as [|y q]; [now destruct p|]. destruct p; discriminate.
  - destruct q as [|y q]; [now destruct p|].
    destruct p as [|z p]; [cbn in Hlen; lia|].
    cbn in Hp, Hq |- *.
    apply andb_true_iff in Hp as [Hxz Hp]. apply andb_true_iff in Hq as [Hxy Hq].
    apply N.eqb_eq in Hxz, Hxy. subst z y. rewrite N.eqb_refl. cbn.
    apply (IH p q Hp Hq). cbn in Hlen. lia.
Qed.

Lemma endswith_both s p q :
  endswith s p = true -> endswith s q = true ->
  (List.length q <= List.length p)%nat -> endswith p q = true.
Proof.
  unfold endswith. intros Hp Hq Hlen.
  apply (startswith_both (rev s)); [assumption | assumption |].
  now rewrite !length_rev.
Qed.

Lemma endswith_excludes s p q :
  endswith s p = true ->
  endswith p q = false -> endswith q p = false ->
  endswith s q = false.
Proof.
  intros Hp Hpq Hqp. destruct (endswith s q) eqn:Hq; [|reflexivity].
  destruct (Nat.le_ge_cases (List.length q) (List.length p)) as [Hle|Hle].
  - rewrite (endswith_both s p q Hp Hq Hle) in Hpq. discriminate.
  - rewrite (endswith_both s q p Hq Hp Hle) in Hqp. discriminate.
Qed.

(** The extension is compared letter for letter: a file name ending in
    [.PDF] or [.HTML] is read by neither library and gives the empty list
    of candidates, whatever its bytes. *)
Theorem upper_case_extension_is_not_read :
  forall L file_bytes filename date_str,
    endswith filename (str ".PDF") = true \/
    endswith filename (str ".HTML") = true ->
    extract_text L file_bytes filename = Ok [] /\
    parse_content L file_bytes filename date_str = Ok [].
Proof.
  intros L file_bytes filename date_str H.
  assert (Hpdf : endswith filename (str ".pdf") = false).
  { destruct H as [H|H]; apply (endswith_excludes _ _ _ H); reflexivity. }
  assert (Hhtml : endswith filename (str ".html") = false).
  { destruct H as [H|H]; apply (endswith_excludes _ _ _ H); reflexivity. }
  assert (E : extract_text L file_bytes filename = Ok []).
  { unfold extract_text. now rewrite Hpdf, Hhtml. }
  split; [exact E|]. unfold parse_content. now rewrite E.
Qed.

Lemma upper_case_extension_is_not_read_witness :
  (endswith (str "WEEK.PDF") (str ".PDF") = true \/
   endswith (str "WEEK.PDF") (str ".HTML") = true) /\
  extract_text latin1_extractors demo_file (str "WEEK.PDF") = Ok [] /\
  parse_content latin1_extractors demo_file (str "WEEK.PDF") (str "2024-05-01")
  = Ok [].
Proof.
  assert (H : endswith (str "WEEK.PDF") (str ".PDF") = true \/
              endswith (str "WEEK.PDF") (str ".HTML") = true)
    by (left; reflexivity).
  split; [exact H|].
  exact (upper_case_extension_is_not_read latin1_extractors demo_file
           (str "WEEK.PDF") (str "2024-05-01") H).
Defined.

(** ** What comes before and after the range *)

Lemma re_match_needs_digit c s :
  isdecimal c = false -> re_match pattern (c :: s) = None.
Proof.
  intros H. rewrite re_match_pattern. unfold scan_groups, scan_range.
  now rewrite (scan_time_needs_digit c s H).
Qed.

Lemma re_search_skips_prefix pre line :
  Forall (fun c => isdecimal c = false) pre ->
  re_search pattern (pre ++ line) =
  match re_search pattern line with
  | Some (pos, g) => Some ((List.length pre + pos)%nat, g)
  | None => None
  end.
Proof.
  induction 1 as [|c pre Hc _ IH]; cbn [app List.length].
  - destruct (re_search pattern line) as [[pos g]|]; reflexivity.
  - rewrite (re_search_later _ _ _ (re_match_needs_digit c (pre ++ line) Hc)), IH.
    destruct (re_search pattern line) as [[pos g]|]; reflexivity.
Qed.

(** Text before the first digit of a line never reaches the candidate: a
    line and the same line behind a prefix without digits make the loop
    do the same thing. *)
Theorem prefix_without_digits_is_dropped :
  forall date_str events pre line,
    Forall (fun c => isdecimal c = false) pre ->
    loop_body date_str events (pre ++ line) = loop_body date_str events line.
Proof.
  intros date_str events pre line Hpre. unfold loop_body.
  rewrite (re_search_skips_prefix pre line Hpre).
  destruct (re_search pattern line) as [[pos g]|]; reflexivity.
Qed.

Lemma prefix_without_digits_is_dropped_witness :
  Forall (fun c => isdecimal c = false) (str "Mon, room B: ") /\
  loop_body (str "2024-05-01") [] (str "Mon, room B: " ++ str "09:00-10:30 Math") =
  loop_body (str "2024-05-01") [] (str "09:00-10:30 Math").
Proof.
  assert (H : Forall (fun c => isdecimal c = false) (str "Mon, room B: "))
    by (apply Forall_forall; intros c Hc;
        apply (proj1 (forallb_forall (fun c => negb (isdecimal c)) (str "Mon, room B: "))
                 eq_refl) in Hc; now apply negb_true_iff in Hc).
  split; [exact H|].
  exact (prefix_without_digits_is_dropped (str "2024-05-01") []
           (str "Mon, room B: ") (str "09:00-10:30 Math") H).
Defined.

Lemma strip_all_space s : Forall is_space s -> strip s = [].
Proof.
  intros H. unfold strip, lstrip.
  rewrite <- (app_nil_r s), (dropwhile_all isspace s [] H). reflexivity.
Qed.

(** A time range followed by nothing, or by whitespace only, still gives
    a candidate: its title is the empty string. *)
Theorem blank_remainder_gives_empty_title :
  forall date_str u s e rest,
    time_range u s e -> Forall is_space rest -> no_newline (u ++ rest) ->
    scan_text (u ++ rest) date_str =
    Ok [ {| title := [];
            time := s ++ [HYPHEN] ++ e;
            s_iso := date_str ++ [LETTER_T] ++ colon_time s ++ str ":00";
            e_iso := date_str ++ [LETTER_T] ++ colon_time e ++ str ":00" |} ].
Proof.
  intros date_str u s e rest Hu Hrest Hn.
  destruct (range_at_start_is_leftmost u s e rest Hu) as [Hr Hmin].
  rewrite scan_text_line by exact Hn.
  rewrite (candidate_of_range date_str (u ++ rest) 0 s e rest Hn Hr Hmin).
  now rewrite (strip_all_space rest Hrest).
Qed.

Lemma blank_remainder_gives_empty_title_witness :
  time_range (str "9.15 - 10.00") (str "9.15") (str "10.00") /\
  Forall is_space (str "   ") /\
  no_newline (str "9.15 - 10.00" ++ str "   ") /\
  scan_text (str "9.15 - 10.00" ++ str "   ") (str "2024-05-01") =
  Ok [ {| title := [];
          time := str "9.15" ++ [HYPHEN] ++ str "10.00";
          s_iso := str "2024-05-01" ++ [LETTER_T] ++ colon_time (str "9.15") ++ str ":00";
          e_iso := str "2024-05-01" ++ [LETTER_T] ++ colon_time (str "10.00") ++ str ":00" |} ].
Proof.
  assert (Hu : time_range (str "9.15 - 10.00") (str "9.15") (str "10.00"))
    by (apply time_range_check; reflexivity).
  assert (Hs : Forall is_space (str "   ")) by (repeat constructor).
  assert (Hn : no_newline (str "9.15 - 10.00" ++ str "   "))
    by (apply no_newline_check; reflexivity).
  split; [exact Hu|]. split; [exact Hs|]. split; [exact Hn|].
  exact (blank_remainder_gives_empty_title (str "2024-05-01") _ _ _ _ Hu Hs Hn).
Defined.

(** ** Indexing *)

Lemma getitem_cases {A : Type} (l : list A) (i : Z) :
  (exists a, getitem l i = Ok a) \/ getitem l i = Raise IndexError.
Proof.
  unfold getitem.
  destruct ((if (i <? 0)%Z then (i + Z.of_nat (List.length l))%Z else i) <? 0)%Z;
    [now right|].
  destruct (nth_error l _); [left; eauto | now right].
Qed.

Lemma getitem_ok_iff {A : Type} (l : list A) (i : Z) :
  (exists a, getitem l i = Ok a) <-> index_in_range (List.length l) i.
Proof.
  unfold getitem, index_in_range.
  destruct (i <? 0)%Z eqn:Hneg.
  - apply Z.ltb_lt in Hneg.
    destruct (i + Z.of_nat (List.length l) <? 0)%Z eqn:Hj.
    + apply Z.ltb_lt in Hj. split; [intros [a H]; discriminate | lia].
    + apply Z.ltb_ge in Hj.
      destruct (nth_error l (Z.to_nat (i + Z.of_nat (List.length l)))) eqn:E.
      * split; [intros _; lia | eauto].
      * apply nth_error_None in E. split; [intros [a H]; discriminate | lia].
  - apply Z.ltb_ge in Hneg.
    destruct (i <? 0)%Z eqn:Hj; [apply Z.ltb_lt in Hj; lia|].
    destruct (nth_error l (Z.to_nat i)) eqn:E.
    + assert (Z.to_nat i < List.length l)%nat
        by (apply nth_error_Some; congruence).
      split; [intros _; lia | eauto].
    + apply nth_error_None in E. split; [intros [a H]; discriminate | lia].
Qed.

Lemma getitem_from_start {A : Type} (l : list A) (i : Z) :
  (- Z.of_nat (List.length l) <= i)%Z ->
  getitem l (from_start (List.length l) i) = getitem l i.
Proof.
  intros Hlo. unfold getitem, from_start.
  destruct (i <? 0)%Z eqn:Hneg; cbv beta iota zeta; rewrite ?Hneg;
    [|reflexivity].
  apply Z.ltb_lt in Hneg.
  destruct (i + Z.of_nat (List.length l) <? 0)%Z eqn:Hj;
    [apply Z.ltb_lt in Hj; lia|].
  cbv beta iota. now rewrite ?Hj.
Qed.

Lemma split_no_sep sep s : ~ In sep s -> split sep s = [s].
Proof.
  induction s as [|c s IH]; cbn; [reflexivity|].
  intros H. destruct (c =? sep) eqn:E.
  - apply N.eqb_eq in E. tauto.
  - rewrite IH; [reflexivity | tauto].
Qed.

Lemma in_first_occurrence (sep : char) s :
  In sep s -> exists a b, s = a ++ sep :: b /\ ~ In sep a.
Proof.
  induction s as [|c s IH]; [intros []|].
  destruct (N.eq_dec c sep) as [->|Hne].
  - intros _. now exists [], s.
  - intros [H|H]; [congruence|].
    destruct (IH H) as (a & b & -> & Ha).
    exists (c :: a), b. split; [reflexivity|].
    intros [E|E]; [congruence | tauto].
Qed.

Lemma split_second sep a b :
  ~ In sep a ->
  exists l ls, split sep (a ++ sep :: b) = a :: l :: ls /\ split sep b = l :: ls.
Proof.
  intros Ha. rewrite split_app_sep, (split_no_sep sep a Ha).
  destruct (split sep b) as [|l ls] eqn:E; [now apply split_not_empty in E|].
  now exists l, ls.
Qed.

Lemma split_has_second sep s :
  (exists c, getitem (split sep s) 1%Z = Ok c) <-> In sep s.
Proof.
  split.
  - intros [c H]. destruct (in_dec N.eq_dec sep s) as [Hin|Hno]; [exact Hin|].
    rewrite (split_no_sep sep s Hno) in H. discriminate.
  - intros Hin. destruct (in_first_occurrence sep s Hin) as (a & b & -> & Ha).
    destruct (split_second sep a b Ha) as (l & ls & -> & _).
    now exists l.
Qed.

(** ** The loop of [export] *)

Lemma export_body_ok_iff C titles starts ends st i st' :
  export_body C titles starts ends st i = Ok st' <->
  exists ev sv,
    export_entry C titles starts ends i ev sv /\
    st' = (fst st ++ [ev], snd st ++ [sv]).
Proof.
  unfold export_body, export_entry, parse_iso, set_end. split.
  - intros H.
    destruct (getitem starts i) as [s|] eqn:Es; [|discriminate]. cbn [bind] in H.
    destruct (fromisoformat C s) as [sd|] eqn:Fs; [|discriminate]. cbn [bind] in H.
    destruct (getitem ends i) as [e|] eqn:Ee; [|discriminate]. cbn [bind] in H.
    destruct (fromisoformat C e) as [ed|] eqn:Fe; [|discriminate]. cbn [bind] in H.
    destruct (getitem titles i) as [t|] eqn:Et; [|discriminate]. cbn [bind] in H.
    destruct (end_precedes C ed sd) eqn:Hp; [discriminate|]. cbn [bind] in H.
    destruct (getitem (split LETTER_T s) 1%Z) as [clock|] eqn:Ec; [|discriminate].
    cbn [bind] in H. injection H as <-.
    exists (mk_ics_event t sd ed), (mk_saved t (slice_to 5 clock)).
    split; [|reflexivity]. exists s, e, clock. cbn [name begin end_]. auto 10.
  - intros (ev & sv & (s & e & clock & Et & Es & Ee & Fs & Fe & Hp & Ec & ->) & ->).
    rewrite Es. cbn [bind]. rewrite Fs. cbn [bind]. rewrite Ee. cbn [bind].
    rewrite Fe. cbn [bind]. rewrite Et. cbn [bind]. rewrite Hp. cbn [bind].
    rewrite Ec. cbn [bind]. now destruct ev.
Qed.

Lemma export_loop_ok_iff C titles starts ends selected st st' :
  export_loop C titles starts ends selected st = Ok st' <->
  exists entries,
    Forall2 (fun i p => export_entry C titles starts ends i (fst p) (snd p))
            selected entries /\
    st' = (fst st ++ map fst entries, snd st ++ map snd entries).
Proof.
  revert st. induction selected as [|i rest IH]; intros st; cbn [export_loop].
  - split.
    + intros [= <-]. exists []. split; [constructor|].
      cbn. rewrite !app_nil_r. now destruct st.
    + intros (entries & HF & ->). inversion HF; subst.
      cbn. rewrite !app_nil_r. now destruct st.
  - split.
    + intros H.
      destruct (export_body C titles starts ends st i) as [st1|] eqn:E1;
        [|discriminate].
      cbn [bind] in H.
      apply export_body_ok_iff in E1 as (ev & sv & Hentry & ->).
      apply IH in H as (entries & HF & ->).
      exists ((ev, sv) :: entries). split; [now constructor|].
      cbn [fst snd map]. now rewrite <- !app_assoc.
    + intros (entries & HF & ->).
      inversion HF as [|i' p rest' entries' Hentry HF']; subst.
      assert (E1 : export_body C titles starts ends st i =
                   Ok (fst st ++ [fst p], snd st ++ [snd p])).
      { apply export_body_ok_iff. now exists (fst p), (snd p). }
      rewrite E1. cbn [bind]. apply IH. exists entries'. split; [exact HF'|].
      cbn [fst snd map]. now rewrite <- !app_assoc.
Qed.

Lemma truthy_id_nonzero u : u <> 0%Z -> truthy_id (Some u) = Some u.
Proof. intros H. destruct u; [now contradiction H | reflexivity | reflexivity]. Qed.



(** The candidate of a line such as [23:00-01:00 Party] ends before it
    begins: exported as it is, it is refused. *)
Example overnight_event_is_refused :
  export plain_calendar (Some 7%Z) [str "Party"]
         [str "2024-05-01T23:00:00"] [str "2024-05-01T01:00:00"]
         [0%Z] (str "Week 18") {| history := []; files := [] |}
  = Raise ValueError.
Proof. vm_compute. reflexivity. Qed.

Lemma Forall2_in_left {A B : Type} (R : A -> B -> Prop) l l' x :
  Forall2 R l l' -> In x l -> exists y, In y l' /\ R x y.
Proof.
  induction 1 as [|a b l l' Hab _ IH]; [intros []|].
  intros [<-|Hin].
  - exists b. split; [now left | exact Hab].
  - destruct (IH Hin) as (y & Hy & HR). exists y. split; [now right | exact HR].
Qed.

Lemma export_ok_loop_ok C session_user titles starts ends selected name w resp w' :
  export C session_user titles starts ends selected name w = Ok (resp, w') ->
  truthy_id session_user <> None ->
  exists st, export_loop C titles starts ends selected ([], []) = Ok st.
Proof.
  unfold export. destruct (truthy_id session_user); [|congruence].
  destruct (export_loop C titles starts ends selected ([], [])) as [st|];
    [eauto | discriminate].
Qed.

Lemma export_raises_or_returns C session_user titles starts ends selected name w :
  (exists e, export C session_user titles starts ends selected name w = Raise e) \/
  (exists resp w',
      export C session_user titles starts ends selected name w = Ok (resp, w')).
Proof.
  destruct (export C session_user titles starts ends selected name w) as [[resp w']|e];
    [right | left]; eauto.
Qed.

(** An index is accepted from [-n] to [n - 1] for a list of length [n].
    When a selected index is outside this range for the titles, the
    starts or the ends, the export of a logged-in user raises: no
    operation is recorded and no file is written. *)
Theorem export_raises_on_index_out_of_range :
  forall C uid titles starts ends selected schedule_name w i,
    uid <> 0%Z ->
    In i selected ->
    ~ index_in_range (List.length titles) i \/
    ~ index_in_range (List.length starts) i \/
    ~ index_in_range (List.length ends) i ->
    exists e,
      export C (Some uid) titles starts ends selected schedule_name w = Raise e.
Proof.
  intros C uid titles starts ends selected schedule_name w i Huid Hin Hout.
  destruct (export_raises_or_returns C (Some uid) titles starts ends selected
              schedule_name w) as [H|(resp & w' & H)]; [exact H|].
  exfalso.
  apply export_ok_loop_ok in H as [st Hst];
    [|rewrite (truthy_id_nonzero uid Huid); discriminate].
  apply export_loop_ok_iff in Hst as (entries & HF & _).
  destruct (Forall2_in_left _ _ _ _ HF Hin)
    as (p & _ & (s & e & clock & Et & Es & Ee & _)).
  destruct Hout as [Ho|[Ho|Ho]]; apply Ho, getitem_ok_iff; eauto.
Qed.

Lemma export_raises_on_index_out_of_range_witness :
  7%Z <> 0%Z /\ In 2%Z [0%Z; 2%Z] /\
  (~ index_in_range (List.length [str "Math Lecture"; str "Lab Session"]) 2 \/
   ~ index_in_range (List.length [str "2024-05-01T09:00:00";
                                  str "2024-05-01T14:00:00"]) 2 \/
   ~ index_in_range (List.length [str "2024-05-01T10:30:00";
                                  str "2024-05-01T15:00:00"]) 2) /\
  exists e,
    export plain_calendar (Some 7%Z)
           [str "Math Lecture"; str "Lab Session"]
           [str "2024-05-01T09:00:00"; str "2024-05-01T14:00:00"]
           [str "2024-05-01T10:30:00"; str "2024-05-01T15:00:00"]
           [0%Z; 2%Z] (str "Week 18") {| history := []; files := [] |} = Raise e.
Proof.
  assert (H0 : 7%Z <> 0%Z) by discriminate.
  assert (H1 : In 2%Z [0%Z; 2%Z]) by (right; left; reflexivity).
  assert (H2 : ~ index_in_range (List.length [str "Math Lecture"; str "Lab Session"]) 2 \/
               ~ index_in_range (List.length [str "2024-05-01T09:00:00";
                                              str "2024-05-01T14:00:00"]) 2 \/
               ~ index_in_range (List.length [str "2024-05-01T10:30:00";
                                              str "2024-05-01T15:00:00"]) 2)
    by (left; unfold index_in_range; cbn; lia).
  split; [exact H0|]. split; [exact H1|]. split; [exact H2|].
  exact (export_raises_on_index_out_of_range plain_calendar 7%Z _ _ _ _
           (str "Week 18") {| history := []; files := [] |} 2%Z H0 H1 H2).
Defined.

(** The saved time is read after the first [T] of the start.  A start
    without a [T] makes the export raise even when the library accepts it
    as a timestamp (a date alone, or a blank between date and time). *)
Theorem export_raises_on_start_without_T :
  forall C uid titles (starts : list pystr) ends selected schedule_name w i
         (s : pystr),
    uid <> 0%Z ->
    In i selected ->
    getitem starts i = Ok s ->
    ~ In LETTER_T s ->
    exists e,
      export C (Some uid) titles starts ends selected schedule_name w = Raise e.
Proof.
  intros C uid titles starts ends selected schedule_name w i s Huid Hin Hs HT.
  destruct (export_raises_or_returns C (Some uid) titles starts ends selected
              schedule_name w) as [H|(resp & w' & H)]; [exact H|].
  exfalso.
  apply export_ok_loop_ok in H as [st Hst];
    [|rewrite (truthy_id_nonzero uid Huid); discriminate].
  apply export_loop_ok_iff in Hst as (entries & HF & _).
  destruct (Forall2_in_left _ _ _ _ HF Hin)
    as (p & _ & (s' & e & clock & _ & Es & _ & _ & _ & _ & Ec & _)).
  rewrite Hs in Es. injection Es as <-.
  apply HT, (split_has_second LETTER_T s). eauto.
Qed.

Lemma export_raises_on_start_without_T_witness :
  let accept_all := {| datetime := pystr;
                       fromisoformat := fun s => Some s;
                       end_precedes := str_ltb;
                       serialize := plain_serialize |} in
  7%Z <> 0%Z /\ In 0%Z [0%Z] /\
  getitem [str "2024-05-01 09:00:00"] 0 = Ok (str "2024-05-01 09:00:00") /\
  ~ In LETTER_T (str "2024-05-01 09:00:00") /\
  exists e,
    export accept_all (Some 7%Z) [str "Math Lecture"]
           [str "2024-05-01 09:00:00"] [str "2024-05-01 10:30:00"]
           [0%Z] (str "Week 18") {| history := []; files := [] |} = Raise e.
Proof.
  intros accept_all.
  assert (H0 : 7%Z <> 0%Z) by discriminate.
  assert (H1 : In 0%Z [0%Z]) by (left; reflexivity).
  assert (H2 : getitem [str "2024-05-01 09:00:00"] 0 = Ok (str "2024-05-01 09:00:00"))
    by reflexivity.
  assert (H3 : ~ In LETTER_T (str "2024-05-01 09:00:00")).
  { intros Hin.
    apply (proj1 (forallb_forall (fun c => negb (c =? LETTER_T))
                    (str "2024-05-01 09:00:00")) eq_refl) in Hin.
    discriminate. }
  split; [exact H0|]. split; [exact H1|]. split; [exact H2|]. split; [exact H3|].
  exact (export_raises_on_start_without_T accept_all 7%Z _ _ _ _ (str "Week 18")
           {| history := []; files := [] |} 0%Z _ H0 H1 H2 H3).
Defined.

(** ** Negative indices *)

Lemma export_body_from_start C titles starts ends st i n :
  List.length titles = n -> List.length starts = n -> List.length ends = n ->
  (- Z.of_nat n <= i)%Z ->
  export_body C titles starts ends st (from_start n i) =
  export_body C titles starts ends st i.
Proof.
  intros Ht Hs He Hi. unfold export_body.
  assert (G : forall l : list pystr, List.length l = n ->
                getitem l (from_start n i) = getitem l i).
  { intros l <-. now apply getitem_from_start. }
  now rewrite (G titles Ht), (G starts Hs), (G ends He).
Qed.

Lemma export_loop_from_start C titles starts ends selected st n :
  List.length titles = n -> List.length starts = n -> List.length ends = n ->
  Forall (fun i => (- Z.of_nat n <= i)%Z) selected ->
  export_loop C titles starts ends (map (from_start n) selected) st =
  export_loop C titles starts ends selected st.
Proof.
  intros Ht Hs He Hall. revert st.
  induction Hall as [|i rest Hi _ IH]; intros st; cbn [map export_loop];
    [reflexivity|].
  rewrite (export_body_from_start C titles starts ends st i n Ht Hs He Hi).
  destruct (export_body C titles starts ends st i); cbn [bind]; [apply IH | reflexivity].
Qed.

(** A negative index counts from the end: with [n] titles, starts and
    ends, selecting [-1] is selecting [n - 1], and so on down to [-n];
    the answer, the operation recorded and the file are the same. *)
Theorem negative_index_selects_from_the_end :
  forall C session_user titles starts ends selected schedule_name w n,
    List.length titles = n -> List.length starts = n -> List.length ends = n ->
    Forall (fun i => (- Z.of_nat n <= i)%Z) selected ->
    export C session_user titles starts ends (map (from_start n) selected)
           schedule_name w =
    export C session_user titles starts ends selected schedule_name w.
Proof.
  intros C session_user titles starts ends selected schedule_name w n Ht Hs He Hall.
  unfold export.
  now rewrite (export_loop_from_start C titles starts ends selected ([], []) n).
Qed.

Lemma negative_index_selects_from_the_end_witness :
  let titles := [str "Math Lecture"; str "Lab Session"] in
  let starts := [str "2024-05-01T09:00:00"; str "2024-05-01T14:00:00"] in
  let ends := [str "2024-05-01T10:30:00"; str "2024-05-01T15:00:00"] in
  let w := {| history := []; files := [] |} in
  List.length titles = 2%nat /\ List.length starts = 2%nat /\
  List.length ends = 2%nat /\
  Forall (fun i => (- Z.of_nat 2 <= i)%Z) [(-1)%Z; 0%Z; (-2)%Z] /\
  export plain_calendar (Some 7%Z) titles starts ends
         (map (from_start 2) [(-1)%Z; 0%Z; (-2)%Z]) (str "Week 18") w =
  export plain_calendar (Some 7%Z) titles starts ends
         [(-1)%Z; 0%Z; (-2)%Z] (str "Week 18") w.
Proof.
  intros titles starts ends w.
  assert (H : Forall (fun i => (- Z.of_nat 2 <= i)%Z) [(-1)%Z; 0%Z; (-2)%Z])
    by (repeat constructor; cbn; lia).
  split; [reflexivity|]. split; [reflexivity|]. split; [reflexivity|].
  split; [exact H|].
  exact (negative_index_selects_from_the_end plain_calendar (Some 7%Z)
           titles starts ends _ (str "Week 18") w 2%nat eq_refl eq_refl eq_refl H).
Defined.

(** ** What the removal of Z keeps *)

(** The text of a successful export is the text the library rendered for
    the calendar of the selected events with its Z's taken out and
    nothing else touched: every other character is kept, in place, and a
    rendering without a Z is written as it is. *)
Theorem export_keeps_all_but_Z :
  forall C titles starts ends selected out,
    export_ics C titles starts ends selected = Ok out ->
    exists cal,
      List.length cal = List.length selected /\
      out = filter (fun c => negb (c =? LETTER_Z)) (serialize C cal) /\
      (~ In LETTER_Z (serialize C cal) -> out = serialize C cal).
Proof.
  intros C titles starts ends selected out H. unfold export_ics in H.
  destruct (export_loop C titles starts ends selected ([], [])) as [st|] eqn:E;
    [|discriminate].
  cbn [bind] in H. injection H as <-.
  apply export_loop_ok_iff in E as (entries & HF & ->).
  exists (map fst entries). cbn [fst app].
  split; [|split].
  - rewrite length_map. symmetry. exact (Forall2_length HF).
  - unfold ics_fixed. apply replace_delete_char.
  - intros Hno. unfold ics_fixed. rewrite replace_delete_char.
    apply filter_keeps_all. intros x Hx.
    apply negb_true_iff, N.eqb_neq. intros ->. now apply Hno.
Qed.

Lemma export_keeps_all_but_Z_witness :
  let out := join CRLF [ str "BEGIN:VCALENDAR"; str "VERSION:2.0";
                         str "PRODID:ics.py - http://git.io/lLljaA";
                         str "BEGIN:VEVENT";
                         str "DTEND:20240501T103000";
                         str "DTSTART:20240501T090000";
                         str "SUMMARY:Math Lecture";
                         str "END:VEVENT";
                         str "END:VCALENDAR" ] in
  export_ics plain_calendar [str "Math Lecture"] [str "2024-05-01T09:00:00"]
             [str "2024-05-01T10:30:00"] [0%Z] = Ok out /\
  exists cal,
    List.length cal = List.length [0%Z] /\
    out = filter (fun c => negb (c =? LETTER_Z)) (serialize plain_calendar cal) /\
    (~ In LETTER_Z (serialize plain_calendar cal) ->
     out = serialize plain_calendar cal).
Proof.
  intros out.
  assert (H : export_ics plain_calendar [str "Math Lecture"]
                [str "2024-05-01T09:00:00"] [str "2024-05-01T10:30:00"] [0%Z]
              = Ok out) by (vm_compute; reflexivity).
  split; [exact H|].
  exact (export_keeps_all_but_Z plain_calendar _ _ _ _ out H).
Defined.

(** ** File names of the export *)

Lemma str_inj a b : str a = str b -> a = b.
Proof.
  unfold str. intros H.
  rewrite <- (string_of_list_ascii_of_string a),
          <- (string_of_list_ascii_of_string b).
  f_equal. revert H.
  generalize (list_ascii_of_string a) (list_ascii_of_string b).
  induction l as [|x l IH]; intros [|y l']; cbn; try discriminate; [reflexivity|].
  intros [= Hxy Hl]. f_equal; [|now apply IH].
  rewrite <- (ascii_N_embedding x), <- (ascii_N_embedding y). now rewrite Hxy.
Qed.

Lemma to_int_not_nil z :
  Z.to_int z <> Decimal.Pos Decimal.Nil /\ Z.to_int z <> Decimal.Neg Decimal.Nil.
Proof.
  destruct z as [|p|p]; cbn; split; try discriminate;
    intros [= H]; now apply (DecimalPos.Unsigned.to_uint_nonnil p).
Qed.

Lemma str_of_int_inj a b : str_of_int a = str_of_int b -> a = b.
Proof.
  unfold str_of_int. intros H. apply str_inj in H.
  apply DecimalZ.to_int_inj.
  destruct (to_int_not_nil a) as [Ha1 Ha2]. destruct (to_int_not_nil b) as [Hb1 Hb2].
  pose proof (DecimalString.NilZero.isi _ Ha1 Ha2) as Ea.
  pose proof (DecimalString.NilZero.isi _ Hb1 Hb2) as Eb.
  rewrite H in Ea. rewrite Ea in Eb. now injection Eb.
Qed.

Lemma export_path_inj a b : export_path a = export_path b -> a = b.
Proof.
  unfold export_path. intros H.
  apply app_inv_head, app_inv_tail in H. now apply str_of_int_inj.
Qed.

Lemma export_path_eqb a b : a <> b -> str_eqb (export_path a) (export_path b) = false.
Proof.
  intros Hne. destruct (str_eqb (export_path a) (export_path b)) eqn:E; [|reflexivity].
  apply str_eqb_eq, export_path_inj in E. contradiction.
Qed.

Lemma export_logged_in C u titles starts ends selected name w resp w' :
  u <> 0%Z ->
  export C (Some u) titles starts ends selected name w = Ok (resp, w') ->
  exists saved content,
    resp = FileResponse (export_path u) (name ++ str ".ics") /\
    history w' = history w ++ [mk_operation name saved u] /\
    files w' = (export_path u, content) :: files w.
Proof.
  intros Hu H. unfold export in H. rewrite (truthy_id_nonzero u Hu) in H.
  destruct (export_loop C titles starts ends selected ([], [])) as [st|];
    [|discriminate].
  cbn [bind] in H. injection H as <- <-. cbn [history files]. eauto.
Qed.

(** The file of an export is named after the user alone.  After two
    exports that went through, the file of the second user holds the
    second text; the file the first answer points to still holds the first
    text when the users differ, and holds the second text when they are
    the same user, whatever the two schedule names. *)
Theorem export_file_is_one_per_user :
  forall C u1 titles1 starts1 ends1 selected1 name1
           u2 titles2 starts2 ends2 selected2 name2 w r1 w1 r2 w2,
    u1 <> 0%Z -> u2 <> 0%Z ->
    export C (Some u1) titles1 starts1 ends1 selected1 name1 w = Ok (r1, w1) ->
    export C (Some u2) titles2 starts2 ends2 selected2 name2 w1 = Ok (r2, w2) ->
    exists c1 c2,
      r1 = FileResponse (export_path u1) (name1 ++ str ".ics") /\
      r2 = FileResponse (export_path u2) (name2 ++ str ".ics") /\
      read_file (files w1) (export_path u1) = Some c1 /\
      read_file (files w2) (export_path u2) = Some c2 /\
      (u1 <> u2 -> read_file (files w2) (export_path u1) = Some c1) /\
      (u1 = u2 -> read_file (files w2) (export_path u1) = Some c2).
Proof.
  intros C u1 titles1 starts1 ends1 selected1 name1
         u2 titles2 starts2 ends2 selected2 name2 w r1 w1 r2 w2 H1 H2 E1 E2.
  destruct (export_logged_in _ _ _ _ _ _ _ _ _ _ H1 E1) as (sv1 & c1 & -> & _ & F1).
  destruct (export_logged_in _ _ _ _ _ _ _ _ _ _ H2 E2) as (sv2 & c2 & -> & _ & F2).
  exists c1, c2. rewrite F2, F1. cbn [read_file].
  rewrite !str_eqb_refl. repeat split.
  - intros Hne. now rewrite (export_path_eqb u2 u1) by congruence.
  - intros ->. now rewrite str_eqb_refl.
Qed.

Lemma export_file_is_one_per_user_witness :
  let w := {| history := []; files := [] |} in
  let c1 := ics_fixed plain_calendar
              [mk_ics_event (str "Math Lecture") (str "20240501T090000")
                            (str "20240501T103000")] in
  let c2 := ics_fixed plain_calendar
              [mk_ics_event (str "Lab Session") (str "20240502T140000")
                            (str "20240502T150000")] in
  let op1 := mk_operation (str "Week 18")
               [mk_saved (str "Math Lecture") (str "09:00")] 7%Z in
  let op2 := mk_operation (str "Week 19")
               [mk_saved (str "Lab Session") (str "14:00")] 7%Z in
  let r1 := FileResponse (export_path 7) (str "Week 18" ++ str ".ics") in
  let r2 := FileResponse (export_path 7) (str "Week 19" ++ str ".ics") in
  let w1 := {| history := [op1]; files := [(export_path 7, c1)] |} in
  let w2 := {| history := [op1; op2];
               files := [(export_path 7, c2); (export_path 7, c1)] |} in
  7%Z <> 0%Z /\
  export plain_calendar (Some 7%Z) [str "Math Lecture"]
         [str "2024-05-01T09:00:00"] [str "2024-05-01T10:30:00"]
         [0%Z] (str "Week 18") w = Ok (r1, w1) /\
  export plain_calendar (Some 7%Z) [str "Lab Session"]
         [str "2024-05-02T14:00:00"] [str "2024-05-02T15:00:00"]
         [0%Z] (str "Week 19") w1 = Ok (r2, w2) /\
  exists c1' c2',
    r1 = FileResponse (export_path 7) (str "Week 18" ++ str ".ics") /\
    r2 = FileResponse (export_path 7) (str "Week 19" ++ str ".ics") /\
    read_file (files w1) (export_path 7) = Some c1' /\
    read_file (files w2) (export_path 7) = Some c2' /\
    (7%Z <> 7%Z -> read_file (files w2) (export_path 7) = Some c1') /\
    (7%Z = 7%Z -> read_file (files w2) (export_path 7) = Some c2').
Proof.
  intros w c1 c2 op1 op2 r1 r2 w1 w2.
  assert (H : 7%Z <> 0%Z) by discriminate.
  assert (E1 : export plain_calendar (Some 7%Z) [str "Math Lecture"]
                 [str "2024-05-01T09:00:00"] [str "2024-05-01T10:30:00"]
                 [0%Z] (str "Week 18") w = Ok (r1, w1))
    by (vm_compute; reflexivity).
  assert (E2 : export plain_calendar (Some 7%Z) [str "Lab Session"]
                 [str "2024-05-02T14:00:00"] [str "2024-05-02T15:00:00"]
                 [0%Z] (str "Week 19") w1 = Ok (r2, w2))
    by (vm_compute; reflexivity).
  split; [exact H|]. split; [exact E1|]. split; [exact E2|].
  exact (export_file_is_one_per_user plain_calendar 7%Z _ _ _ _ _ 7%Z _ _ _ _ _
           w r1 w1 r2 w2 H H E1 E2).
Defined.

(** ** Any number of exports *)






(** ** From a candidate to the saved time *)

Lemma colon_time_of_token tok :
  time_token tok ->
  exists h m,
    colon_time tok = h ++ COLON :: m /\
    List.length tok = (List.length h + 3)%nat /\
    (List.length h = 1 \/ List.length h = 2)%nat /\
    Forall is_digit h /\ List.length m = 2%nat /\ Forall is_digit m.
Proof.
  intros (h & c & m & -> & Hh & Dh & Hc & Hm & Dm).
  exists h, m. split; [|split; [|auto]].
  - unfold colon_time. rewrite map_app. cbn [map].
    change (colon_time h ++ (if c =? PERIOD then COLON else c) :: colon_time m
            = h ++ COLON :: m).
    rewrite (colon_time_digits h Dh), (colon_time_digits m Dm).
    destruct (sep_cases c Hc) as [-> | ->]; reflexivity.
  - rewrite length_app. cbn [List.length]. lia.
Qed.

Lemma digits_have_no_T l : Forall is_digit l -> ~ In LETTER_T l.
Proof.
  intros H Hin. rewrite Forall_forall in H. specialize (H _ Hin). discriminate H.
Qed.

Lemma clock_of_candidate date_str s e t :
  ~ In LETTER_T date_str -> time_token s ->
  getitem (split LETTER_T (s_iso (candidate date_str s e t))) 1%Z
  = Ok (colon_time s ++ str ":00").
Proof.
  intros Hd Hs. cbn [s_iso candidate]. rewrite replace_period.
  destruct (colon_time_of_token s Hs) as (h & m & E & _ & _ & Dh & _ & Dm).
  change (date_str ++ [LETTER_T] ++ colon_time s ++ str ":00")
    with (date_str ++ LETTER_T :: (colon_time s ++ str ":00")).
  destruct (split_second LETTER_T date_str (colon_time s ++ str ":00") Hd)
    as (l & ls & -> & Hb).
  rewrite split_no_sep in Hb.
  - injection Hb as <- <-. reflexivity.
  - rewrite E. intros Hin. apply in_app_or in Hin as [Hin|Hin].
    + apply in_app_or in Hin as [Hin|Hin]; [now apply (digits_have_no_T h)|].
      destruct Hin as [Hin|Hin]; [discriminate|]. now apply (digits_have_no_T m).
    + cbn in Hin. intuition discriminate.
Qed.

(** When a candidate whose start has a two-digit hour is exported as
    [parse_content] built it, the time saved in the history with its
    title is its start clock, written with a colon: the five characters
    after the [T] of its start. *)
Theorem saved_time_of_a_candidate :
  forall C titles (starts : list pystr) ends st st' i date_str s e t,
    ~ In LETTER_T date_str ->
    time_token s ->
    List.length s = 5%nat ->
    getitem starts i = Ok (s_iso (candidate date_str s e t)) ->
    export_body C titles starts ends st i = Ok st' ->
    exists saved_name,
      getitem titles i = Ok saved_name /\
      snd st' = snd st ++ [mk_saved saved_name (colon_time s)].
Proof.
  intros C titles starts ends st st' i date_str s e t Hd Hs Hl Hi H.
  apply export_body_ok_iff in H
    as (ev & sv & (s0 & e0 & clock & Et & Es & _ & _ & _ & _ & Ec & ->) & ->).
  assert (s0 = s_iso (candidate date_str s e t)) by congruence. subst s0.
  rewrite (clock_of_candidate date_str s e t Hd Hs) in Ec. injection Ec as <-.
  exists (name ev). split; [exact Et|]. cbn [snd]. do 3 f_equal.
  destruct (colon_time_of_token s Hs) as (h & m & E & Hlen & Hh & _ & Hm & _).
  rewrite E. unfold slice_to.
  destruct m as [|m1 [|m2 [|? ?]]]; try discriminate Hm.
  destruct h as [|a [|b [|? ?]]]; cbn in Hlen; try lia. reflexivity.
Qed.

Lemma saved_time_of_a_candidate_witness :
  let ev := candidate (str "2024-05-01") (str "09.15") (str "10.00") (str "Run") in
  ~ In LETTER_T (str "2024-05-01") /\
  time_token (str "09.15") /\
  List.length (str "09.15") = 5%nat /\
  getitem [s_iso ev] 0%Z = Ok (s_iso ev) /\
  export_body plain_calendar [title ev] [s_iso ev] [e_iso ev] ([], []) 0%Z
  = Ok ([mk_ics_event (str "Run") (str "20240501T091500") (str "20240501T100000")],
        [mk_saved (str "Run") (str "09:15")]) /\
  exists saved_name,
    getitem [title ev] 0%Z = Ok saved_name /\
    [mk_saved (str "Run") (str "09:15")] =
    [] ++ [mk_saved saved_name (colon_time (str "09.15"))].
Proof.
  intros ev.
  assert (Hd : ~ In LETTER_T (str "2024-05-01")).
  { intros Hin.
    apply (proj1 (forallb_forall (fun c => negb (c =? LETTER_T)) (str "2024-05-01"))
             eq_refl) in Hin. discriminate. }
  assert (Hs : time_token (str "09.15")) by (apply time_token_check; reflexivity).
  assert (Hl : List.length (str "09.15") = 5%nat) by reflexivity.
  assert (Hi : getitem [s_iso ev] 0%Z = Ok (s_iso ev)) by reflexivity.
  assert (Hb : export_body plain_calendar [title ev] [s_iso ev] [e_iso ev] ([], []) 0%Z
               = Ok ([mk_ics_event (str "Run") (str "20240501T091500")
                        (str "20240501T100000")],
                     [mk_saved (str "Run") (str "09:15")]))
    by (vm_compute; reflexivity).
  split; [exact Hd|]. split; [exact Hs|]. split; [exact Hl|]. split; [exact Hi|].
  split; [exact Hb|].
  exact (saved_time_of_a_candidate plain_calendar [title ev] [s_iso ev] [e_iso ev]
           ([], []) _ 0%Z (str "2024-05-01") (str "09.15") (str "10.00") (str "Run")
           Hd Hs Hl Hi Hb).
Defined.

(** ** Accounts *)

Lemma user_by_name_some users name u :
  user_by_name users name = Some u -> In u users /\ username u = name.
Proof.
  unfold user_by_name. intros H. apply find_some in H as [Hin He].
  split; [exact Hin | now apply str_eqb_eq].
Qed.

Lemma user_by_name_none users name :
  user_by_name users name = None <-> ~ In name (map username users).
Proof.
  unfold user_by_name. split.
  - intros H Hin. apply in_map_iff in Hin as (u & <- & Hu).
    pose proof (find_none _ _ H u Hu) as E. cbn beta in E.
    now rewrite str_eqb_refl in E.
  - intros H. destruct (find _ users) as [u|] eqn:E; [|reflexivity].
    apply find_some in E as [Hin He]. apply str_eqb_eq in He.
    exfalso. apply H. apply in_map_iff. now exists u.
Qed.

Lemma user_by_name_app users more name u :
  user_by_name users name = Some u -> user_by_name (users ++ more) name = Some u.
Proof.
  unfold user_by_name. induction users as [|x users IH]; cbn; [discriminate|].
  destruct (str_eqb (username x) name); [trivial | exact IH].
Qed.

Lemma user_by_name_last users name u :
  user_by_name users name = None -> username u = name ->
  user_by_name (users ++ [u]) name = Some u.
Proof.
  unfold user_by_name. intros Hn Hu.
  induction users as [|x users IH]; cbn in *.
  - rewrite Hu, str_eqb_refl. reflexivity.
  - destruct (str_eqb (username x) name); [discriminate | now apply IH].
Qed.

Lemma user_by_name_unique users name u :
  NoDup (map username users) -> In u users -> username u = name ->
  user_by_name users name = Some u.
Proof.
  unfold user_by_name. induction users as [|x users IH]; cbn; [intros _ []|].
  intros Hnd Hin Hu. inversion Hnd as [|? ? Hx Hnd']; subst.
  destruct Hin as [->|Hin].
  - now rewrite str_eqb_refl.
  - destruct (str_eqb (username x) (username u)) eqn:E; [|now apply IH].
    apply str_eqb_eq in E. exfalso. apply Hx. rewrite E. now apply in_map.
Qed.

Lemma NoDup_snoc {A : Type} (l : list A) x :
  NoDup l -> ~ In x l -> NoDup (l ++ [x]).
Proof.
  induction 1 as [|a l Ha _ IH]; intros Hx; cbn.
  - constructor; [tauto | constructor].
  - constructor.
    + intros Hin. apply in_app_or in Hin as [Hin|[->|[]]]; [tauto|].
      apply Hx. now left.
    + apply IH. intros Hin. apply Hx. now right.
Qed.

Lemma register_ok A users name password salt pg users' :
  register A users name password salt = Ok (pg, users') ->
  users' = users \/
  exists hash,
    user_by_name users name = None /\
    pw_hash A password salt = Ok hash /\
    pg = Redirect (str "/") /\
    users' = users ++ [mk_user (next_id A users) name hash].
Proof.
  unfold register. destruct (user_by_name users name) eqn:E.
  - intros [= _ <-]. now left.
  - destruct (pw_hash A password salt) as [hash|]; cbn [bind]; [|discriminate].
    intros [= <- <-]. right. now exists hash.
Qed.

Lemma register_step_cases A users c :
  register_step A users c = users \/
  exists hash,
    user_by_name users (fst (fst c)) = None /\
    register_step A users c =
    users ++ [mk_user (next_id A users) (fst (fst c)) hash].
Proof.
  unfold register_step.
  destruct (register A users (fst (fst c)) (snd (fst c)) (snd c))
    as [[pg users']|] eqn:E; [|now left].
  apply register_ok in E as [->|(hash & Hn & _ & _ & ->)]; [now left|].
  right. now exists hash.
Qed.

Lemma register_keeps_names_unique A users c :
  NoDup (map username users) ->
  NoDup (map username (register_step A users c)).
Proof.
  intros Hnd. destruct (register_step_cases A users c) as [->|(hash & Hn & ->)];
    [exact Hnd|].
  rewrite map_app. cbn [map username].
  apply (proj1 (user_by_name_none users _)) in Hn.
  now apply NoDup_snoc.
Qed.

Lemma register_all_keeps_names_unique A calls users :
  NoDup (map username users) ->
  NoDup (map username (register_all A calls users)).
Proof.
  revert users. induction calls as [|c calls IH]; intros users H; [exact H|].
  cbn. apply IH. now apply register_keeps_names_unique.
Qed.

(** However many times [register] is called on a fresh site, with
    whatever names, no two rows of the users table have the same name. *)
Theorem registered_names_stay_unique :
  forall A calls, NoDup (map username (register_all A calls [])).
Proof.
  intros A calls. apply register_all_keeps_names_unique. constructor.
Qed.

Lemma register_keeps_user A users c name u :
  user_by_name users name = Some u ->
  user_by_name (register_step A users c) name = Some u.
Proof.
  intros H. destruct (register_step_cases A users c) as [->|(hash & _ & ->)];
    [exact H|].
  now apply user_by_name_app.
Qed.

Lemma register_all_keeps_user A calls users name u :
  user_by_name users name = Some u ->
  user_by_name (register_all A calls users) name = Some u.
Proof.
  revert users. induction calls as [|c calls IH]; intros users H; [exact H|].
  cbn. apply IH. now apply register_keeps_user.
Qed.

(** Registering a name that is free, with a password the library hashes,
    and logging in with the same password opens the session of the new
    row, also after any number of later registrations, provided the
    library verifies the password against that hash. *)
Theorem login_after_register :
  forall A users name password salt hash later session_user,
    user_by_name users name = None ->
    pw_hash A password salt = Ok hash ->
    pw_verify A password hash = Ok true ->
    register A users name password salt =
    Ok (Redirect (str "/"), users ++ [mk_user (next_id A users) name hash]) /\
    login A (register_all A later
               (users ++ [mk_user (next_id A users) name hash]))
          session_user name password
    = Ok (Redirect (str "/"), Some (next_id A users)).
Proof.
  intros A users name password salt hash later session_user Hfree Hh Hv.
  split.
  - unfold register. rewrite Hfree, Hh. reflexivity.
  - unfold login.
    rewrite (register_all_keeps_user A later _ name
               (mk_user (next_id A users) name hash)).
    + cbn [hashed_password uid]. rewrite Hv. reflexivity.
    + now apply user_by_name_last.
Qed.

Lemma login_after_register_witness :
  user_by_name [] (str "ada") = None /\
  pw_hash plain_accounts (str "s3cret") (str "salt") = Ok (str "salt|s3cret") /\
  pw_verify plain_accounts (str "s3cret") (str "salt|s3cret") = Ok true /\
  register plain_accounts [] (str "ada") (str "s3cret") (str "salt") =
  Ok (Redirect (str "/"),
      [] ++ [mk_user (next_id plain_accounts []) (str "ada") (str "salt|s3cret")]) /\
  login plain_accounts
        (register_all plain_accounts
           [(str "bob", str "hunter2", str "pepper"); (str "ada", str "other", str "x")]
           ([] ++ [mk_user (next_id plain_accounts []) (str "ada") (str "salt|s3cret")]))
        None (str "ada") (str "s3cret")
  = Ok (Redirect (str "/"), Some (next_id plain_accounts [])).
Proof.
  assert (H1 : pw_hash plain_accounts (str "s3cret") (str "salt")
               = Ok (str "salt|s3cret")) by (vm_compute; reflexivity).
  assert (H2 : pw_verify plain_accounts (str "s3cret") (str "salt|s3cret") = Ok true)
    by (vm_compute; reflexivity).
  split; [reflexivity|]. split; [exact H1|]. split; [exact H2|].
  exact (login_after_register plain_accounts [] (str "ada") (str "s3cret") (str "salt")
           (str "salt|s3cret")
           [(str "bob", str "hunter2", str "pepper"); (str "ada", str "other", str "x")]
           None eq_refl H1 H2).
Defined.

Lemma login_opened A users session_user name password i :
  login A users session_user name password = Ok (Redirect (str "/"), Some i) ->
  exists u, In u users /\ username u = name /\
            pw_verify A password (hashed_password u) = Ok true /\ uid u = i.
Proof.
  unfold login. destruct (user_by_name users name) as [u|] eqn:E.
  - apply user_by_name_some in E as [Hin Hu].
    destruct (pw_verify A password (hashed_password u)) as [[|]|] eqn:Hv;
      cbn [bind].
    + intros [= <-]. now exists u.
    + intros H. injection H as H _. discriminate H.
    + discriminate.
  - intros H. injection H as H _. discriminate H.
Qed.

(** With unique names in the users table, [login] has four outcomes.  It
    opens a session exactly for the row with the given name when the
    library verifies the password against its hash, and the session is
    that row's key.  An unknown name, for which the library is not
    called, and a password the library does not verify get the same
    redirect, and the session is left as it was.  When the library raises
    on the row's hash or on the password, so does [login]. *)
Theorem login_opens_the_session_of_the_named_user :
  forall A users session_user name password,
    NoDup (map username users) ->
    (forall i,
        login A users session_user name password = Ok (Redirect (str "/"), Some i)
        <->
        exists u, In u users /\ username u = name /\
                  pw_verify A password (hashed_password u) = Ok true /\ uid u = i) /\
    (~ In name (map username users) ->
     login A users session_user name password =
     Ok (Redirect (str "/?error=" ++ bad_login), session_user)) /\
    (forall u, In u users -> username u = name ->
               pw_verify A password (hashed_password u) = Ok false ->
               login A users session_user name password =
               Ok (Redirect (str "/?error=" ++ bad_login), session_user)) /\
    (forall u e, In u users -> username u = name ->
                 pw_verify A password (hashed_password u) = Raise e ->
                 login A users session_user name password = Raise e).
Proof.
  intros A users session_user name password Hnd.
  split; [|split; [|split]].
  - intros i. split; [apply login_opened|].
    intros (u & Hin & Hu & Hv & <-). unfold login.
    rewrite (user_by_name_unique users name u Hnd Hin Hu). now rewrite Hv.
  - intros Hno. unfold login.
    now rewrite (proj2 (user_by_name_none users name) Hno).
  - intros u Hin Hu Hv. unfold login.
    rewrite (user_by_name_unique users name u Hnd Hin Hu). now rewrite Hv.
  - intros u e Hin Hu Hv. unfold login.
    rewrite (user_by_name_unique users name u Hnd Hin Hu). now rewrite Hv.
Qed.

Lemma login_opens_the_session_of_the_named_user_witness :
  let users := [mk_user 1 (str "ada") (str "salt|s3cret");
                mk_user 2 (str "bob") (str "pepper|hunter2");
                mk_user 3 (str "eve") (str "not a hash")] in
  NoDup (map username users) /\
  login plain_accounts users None (str "bob") (str "hunter2")
  = Ok (Redirect (str "/"), Some 2%Z) /\
  login plain_accounts users (Some 1%Z) (str "bob") (str "hunter3")
  = Ok (Redirect (str "/?error=" ++ bad_login), Some 1%Z) /\
  login plain_accounts users (Some 1%Z) (str "zoe") (str "hunter2")
  = Ok (Redirect (str "/?error=" ++ bad_login), Some 1%Z) /\
  login plain_accounts users None (str "eve") (str "hunter2")
  = Raise (LibraryError (str "UnknownHashError")).
Proof.
  intros users.
  assert (H : NoDup (map username users)).
  { repeat constructor; cbn; intuition discriminate. }
  destruct (login_opens_the_session_of_the_named_user plain_accounts users
              (Some 1%Z) (str "bob") (str "hunter3") H) as (_ & _ & Hwrong & _).
  destruct (login_opens_the_session_of_the_named_user plain_accounts users
              (Some 1%Z) (str "zoe") (str "hunter2") H) as (_ & Hunknown & _ & _).
  destruct (login_opens_the_session_of_the_named_user plain_accounts users
              None (str "bob") (str "hunter2") H) as (Hopen & _ & _ & _).
  destruct (login_opens_the_session_of_the_named_user plain_accounts users
              None (str "eve") (str "hunter2") H) as (_ & _ & _ & Hraise).
  split; [exact H|]. split; [|split; [|split]].
  - apply (proj2 (Hopen 2%Z)).
    exists (mk_user 2 (str "bob") (str "pepper|hunter2")).
    split; [right; left; reflexivity|]. split; [reflexivity|].
    split; [vm_compute; reflexivity | reflexivity].
  - apply (Hwrong (mk_user 2 (str "bob") (str "pepper|hunter2")));
      [right; left; reflexivity | reflexivity | vm_compute; reflexivity].
  - apply Hunknown. cbn. intuition discriminate.
  - apply (Hraise (mk_user 3 (str "eve") (str "not a hash")));
      [right; right; left; reflexivity | reflexivity | vm_compute; reflexivity].
Defined.

(** ** From [login] to the page *)

Lemma register_keeps_ids_unique A users c :
  (forall us, next_id A us <> 0%Z /\ ~ In (next_id A us) (map uid us)) ->
  NoDup (map uid users) /\ Forall (fun u => uid u <> 0%Z) users ->
  NoDup (map uid (register_step A users c)) /\
  Forall (fun u => uid u <> 0%Z) (register_step A users c).
Proof.
  intros Hdb [Hnd Hnz].
  destruct (register_step_cases A users c) as [->|(hash & _ & ->)]; [now split|].
  destruct (Hdb users) as [Hz Hfresh]. split.
  - rewrite map_app. cbn [map uid]. now apply NoDup_snoc.
  - apply Forall_app. split; [exact Hnz|]. now repeat constructor.
Qed.

Lemma register_all_keeps_ids_unique A calls users :
  (forall us, next_id A us <> 0%Z /\ ~ In (next_id A us) (map uid us)) ->
  NoDup (map uid users) /\ Forall (fun u => uid u <> 0%Z) users ->
  NoDup (map uid (register_all A calls users)) /\
  Forall (fun u => uid u <> 0%Z) (register_all A calls users).
Proof.
  intros Hdb. revert users. induction calls as [|c calls IH]; intros users H;
    [exact H|].
  cbn. apply IH. now apply register_keeps_ids_unique.
Qed.

Lemma user_by_id_unique users u :
  NoDup (map uid users) -> In u users -> user_by_id users (uid u) = Some u.
Proof.
  unfold user_by_id. induction users as [|x users IH]; cbn; [intros _ []|].
  intros Hnd Hin. inversion Hnd as [|? ? Hx Hnd']; subst.
  destruct Hin as [->|Hin].
  - now rewrite Z.eqb_refl.
  - destruct (uid x =? uid u)%Z eqn:E; [|now apply IH].
    apply Z.eqb_eq in E. exfalso. apply Hx. rewrite E. now apply in_map.
Qed.

(** On a site whose users all came through [register], with a database
    that gives every new row a key that is not 0 and not in use: after a
    [login] that opened a session, the page of [home] shows a user of the
    name that logged in. *)
Theorem home_shows_who_logged_in :
  forall A calls session_user name password i now_date error,
    (forall us, next_id A us <> 0%Z /\ ~ In (next_id A us) (map uid us)) ->
    login A (register_all A calls []) session_user name password
    = Ok (Redirect (str "/"), Some i) ->
    exists u,
      username u = name /\ uid u = i /\
      home (register_all A calls []) (Some i) now_date error
      = IndexPage (Some u) None now_date error.
Proof.
  intros A calls session_user name password i now_date error Hdb H.
  destruct (register_all_keeps_ids_unique A calls [] Hdb) as [Hnd Hnz];
    [split; constructor|].
  apply login_opened in H as (u & Hin & Hu & _ & <-).
  exists u. split; [exact Hu|]. split; [reflexivity|].
  unfold home, current_user.
  rewrite Forall_forall in Hnz.
  rewrite (truthy_id_nonzero (uid u) (Hnz u Hin)).
  now rewrite (user_by_id_unique _ u Hnd Hin).
Qed.

Lemma plain_next_id_is_fresh us :
  next_id plain_accounts us <> 0%Z /\
  ~ In (next_id plain_accounts us) (map uid us).
Proof.
  cbn [next_id plain_accounts].
  assert (Hmax : forall l x, In x l -> (x <= fold_right Z.max 0 l)%Z).
  { induction l as [|a l IH]; intros x Hin; [destruct Hin|].
    destruct Hin as [->|Hin]; cbn; [lia|]. specialize (IH x Hin). lia. }
  assert (Hpos : forall l, (0 <= fold_right Z.max 0 l)%Z).
  { induction l as [|a l IH]; cbn; lia. }
  split.
  - specialize (Hpos (map uid us)). lia.
  - intros Hin. specialize (Hmax _ _ Hin). lia.
Qed.

Lemma home_shows_who_logged_in_witness :
  let calls := [(str "ada", str "s3cret", str "salt");
                (str "bob", str "hunter2", str "pepper")] in
  (forall us, next_id plain_accounts us <> 0%Z /\
              ~ In (next_id plain_accounts us) (map uid us)) /\
  login plain_accounts (register_all plain_accounts calls []) None
        (str "bob") (str "hunter2") = Ok (Redirect (str "/"), Some 2%Z) /\
  exists u,
    username u = str "bob" /\ uid u = 2%Z /\
    home (register_all plain_accounts calls []) (Some 2%Z) (str "2024-05-01") None
    = IndexPage (Some u) None (str "2024-05-01") None.
Proof.
  intros calls.
  assert (H : login plain_accounts (register_all plain_accounts calls []) None
                (str "bob") (str "hunter2") = Ok (Redirect (str "/"), Some 2%Z))
    by (vm_compute; reflexivity).
  split; [exact plain_next_id_is_fresh|]. split; [exact H|].
  exact (home_shows_who_logged_in plain_accounts calls None (str "bob")
           (str "hunter2") 2%Z (str "2024-05-01") None plain_next_id_is_fresh H).
Defined.

(** ** Whitespace at the end of a line *)

Lemma space_not_sep x : isspace x = true -> colon_or_period x = false.
Proof.
  intros H. destruct (colon_or_period x) eqn:E; [|reflexivity].
  destruct (sep_cases x E); subst; discriminate H.
Qed.

Lemma scan_time_snoc l x :
  isdecimal x = false -> colon_or_period x = false ->
  scan_time (l ++ [x]) =
  match scan_time l with
  | Some (t, r) => Some (t, r ++ [x])
  | None => None
  end.
Proof.
  intros Hd Hs. unfold scan_time.
  destruct l as [|a [|b [|c [|d [|e r]]]]]; cbn [app].
  - reflexivity.
  - now rewrite Hd, Hs, !andb_false_r.
  - destruct (isdecimal a && isdecimal b); [reflexivity|].
    destruct (isdecimal a && colon_or_period b); reflexivity.
  - destruct (isdecimal a && isdecimal b); [reflexivity|].
    destruct (isdecimal a && colon_or_period b); [|reflexivity].
    now rewrite Hd, andb_false_r.
  - destruct (isdecimal a && isdecimal b).
    + now rewrite Hd, andb_false_r.
    + destruct (isdecimal a && colon_or_period b); [|reflexivity].
      destruct (isdecimal c && isdecimal d); reflexivity.
  - destruct (isdecimal a && isdecimal b).
    + destruct (colon_or_period c && isdecimal d && isdecimal e); reflexivity.
    + destruct (isdecimal a && colon_or_period b); [|reflexivity].
      destruct (isdecimal c && isdecimal d); reflexivity.
Qed.

Lemma dropwhile_snoc_space l x :
  isspace x = true ->
  dropwhile isspace (l ++ [x]) =
  match dropwhile isspace l with
  | [] => []
  | c :: r => c :: r ++ [x]
  end.
Proof.
  intros Hx. induction l as [|a l IH]; cbn [app dropwhile].
  - now rewrite Hx.
  - destruct (isspace a); [exact IH | reflexivity].
Qed.

Lemma scan_range_snoc l x :
  isspace x = true ->
  scan_range (l ++ [x]) =
  match scan_range l with
  | Some (s, e, r) => Some (s, e, r ++ [x])
  | None => None
  end.
Proof.
  intros Hx. unfold scan_range.
  pose proof (space_not_digit x Hx) as Hd. pose proof (space_not_sep x Hx) as Hs.
  rewrite (scan_time_snoc l x Hd Hs).
  destruct (scan_time l) as [[t1 s1]|]; [|reflexivity].
  unfold scan_dash. rewrite (dropwhile_snoc_space s1 x Hx).
  destruct (dropwhile isspace s1) as [|d s']; [reflexivity|].
  destruct (hyphen_or_dash d); [|reflexivity].
  rewrite (dropwhile_snoc_space s' x Hx).
  destruct (dropwhile isspace s') as [|c r]; [reflexivity|].
  change (c :: r ++ [x]) with ((c :: r) ++ [x]).
  rewrite (scan_time_snoc (c :: r) x Hd Hs).
  destruct (scan_time (c :: r)) as [[t2 s3]|]; reflexivity.
Qed.

Lemma strip_snoc_space r x : isspace x = true -> strip (r ++ [x]) = strip r.
Proof.
  intros Hx. unfold strip, lstrip. rewrite (dropwhile_snoc_space r x Hx).
  destruct (dropwhile isspace r) as [|c r1]; [reflexivity|].
  unfold rstrip. change (c :: r1 ++ [x]) with ((c :: r1) ++ [x]).
  rewrite rev_app_distr. cbn [rev app dropwhile]. now rewrite Hx.
Qed.

Lemma event_of_line_here date_str line s e r :
  scan_range line = Some (s, e, r) ->
  event_of_line date_str line =
  Some (candidate date_str s e (takewhile not_newline (dropwhile isspace r))).
Proof.
  intros H. unfold event_of_line.
  rewrite (re_search_here pattern line
             [s; e; takewhile not_newline (dropwhile isspace r)]); [reflexivity|].
  rewrite re_match_pattern. unfold scan_groups. now rewrite H.
Qed.

Lemma event_of_line_later date_str c line :
  scan_range (c :: line) = None ->
  event_of_line date_str (c :: line) = event_of_line date_str line.
Proof.
  intros H. unfold event_of_line. rewrite re_search_later.
  - destruct (re_search pattern line) as [[pos g]|]; reflexivity.
  - rewrite re_match_pattern. unfold scan_groups. now rewrite H.
Qed.

Lemma scan_range_suffix l s e r : scan_range l = Some (s, e, r) -> exists u, l = u ++ r.
Proof.
  intros H. destruct (scan_range_sound _ _ _ _ H) as (u & -> & _). now exists u.
Qed.

Lemma event_of_line_snoc date_str line x :
  isspace x = true -> no_newline (line ++ [x]) ->
  event_of_line date_str (line ++ [x]) = event_of_line date_str line.
Proof.
  intros Hx. induction line as [|c line IH]; intros Hn.
  - cbn [app]. unfold event_of_line.
    rewrite re_search_later by (apply re_match_needs_digit; now apply space_not_digit).
    reflexivity.
  - destruct (scan_range (c :: line)) as [[[s e] r]|] eqn:E.
    + pose proof (scan_range_snoc (c :: line) x Hx) as E'. rewrite E in E'.
      rewrite (event_of_line_here date_str _ s e (r ++ [x]) E').
      rewrite (event_of_line_here date_str _ s e r E).
      destruct (scan_range_suffix _ _ _ _ E) as [u Eu].
      assert (Hr : no_newline (r ++ [x])).
      { rewrite Eu, <- app_assoc in Hn. now apply no_newline_app in Hn. }
      assert (Hr' : no_newline r) by now apply no_newline_app in Hr.
      unfold candidate. f_equal.
      rewrite !takewhile_no_newline by now apply no_newline_dropwhile.
      now rewrite !strip_lstrip, strip_snoc_space.
    + pose proof (scan_range_snoc (c :: line) x Hx) as E'. rewrite E in E'.
      cbn [app] in E' |- *.
      rewrite (event_of_line_later date_str c (line ++ [x]) E').
      rewrite (event_of_line_later date_str c line E).
      apply IH. cbn [app] in Hn. unfold no_newline in *. cbn [In] in Hn. tauto.
Qed.

(** Whitespace at the end of a line, such as the carriage return of a
    text with Windows line ends, changes nothing: the loop does the same
    with the line as without it. *)
Theorem trailing_whitespace_changes_nothing :
  forall date_str events line ws,
    Forall is_space ws -> no_newline (line ++ ws) ->
    loop_body date_str events (line ++ ws) = loop_body date_str events line.
Proof.
  intros date_str events line ws Hws. revert line.
  induction Hws as [|x ws Hx _ IH]; intros line Hn.
  - now rewrite app_nil_r.
  - change (line ++ x :: ws) with (line ++ [x] ++ ws) in *.
    rewrite app_assoc in *. rewrite (IH (line ++ [x]) Hn).
    rewrite !loop_body_line_events. unfold line_events.
    rewrite (event_of_line_snoc date_str line x Hx); [reflexivity|].
    now apply no_newline_app in Hn.
Qed.

Lemma trailing_whitespace_changes_nothing_witness :
  Forall is_space [13; 32] /\
  no_newline (str "09:00-10:30 Math" ++ [13; 32]) /\
  loop_body (str "2024-05-01") [] (str "09:00-10:30 Math" ++ [13; 32]) =
  loop_body (str "2024-05-01") [] (str "09:00-10:30 Math").
Proof.
  assert (H1 : Forall is_space [13; 32]) by (repeat constructor).
  assert (H2 : no_newline (str "09:00-10:30 Math" ++ [13; 32]))
    by (apply no_newline_check; reflexivity).
  split; [exact H1|]. split; [exact H2|].
  exact (trailing_whitespace_changes_nothing (str "2024-05-01") []
           (str "09:00-10:30 Math") [13; 32] H1 H2).
Defined.
